(** * Synapse-Net: the load-balancing simulation and its policy modules

    A shallow embedding of [python_simulation]: the data model
    ([models.py]), the failure injector ([failure_injection.py]), the
    adaptive migration engine ([adaptive_migration.py]), the redundancy
    and failover manager ([redundancy_failover.py]) and the simulation
    engine ([load_balancer_simulation.py]), followed by the properties
    proved about them.

    Conventions of the embedding.
    - A Python [float] is an exact rational ([Q]); an [int] is a [Z].
      Rounding is not modelled.  The one irrational operation of the
      code, [variance ** 0.5], is the real square root.
    - A [dict] is a [gmap], a [set] is a [gset]; iterating over either
      visits the elements in the order of [map_to_list] / [elements].
      The three per-node distribution dicts of [LoadBalancingMetrics]
      are created with every [NodeId] as key and never lose one: they
      are total functions.
    - [random] is an explicit source of draws threaded through the code,
      and [time.time()] is an argument of the function that reads it.
    - A raised exception is a [Raise] result. *)

From Stdlib Require Import QArith Qround Lqa Reals Lra Qreals.
From stdpp Require Import gmap strings list fin_maps fin_sets functions pretty.

Ltac qlra := Lqa.lra.

(** ** Python numbers *)

Module Py.

Definition Qltb (x y : Q) : bool := negb (Qle_bool y x).
Definition Qleb (x y : Q) : bool := Qle_bool x y.

(** [max(a, b)] and [min(a, b)] keep the first argument unless the
    second is strictly better. *)
Definition max (a b : Q) : Q := if Qltb a b then b else a.
Definition min (a b : Q) : Q := if Qltb b a then b else a.

Definition of_int (z : Z) : Q := inject_Z z.

(** [int(x)] on a float truncates toward zero. *)
Definition int (x : Q) : Z := Z.quot (Qnum x) (Z.pos (Qden x)).

(** [d[k] = v] on a dict that remembers insertion order: an existing
    key keeps its place. *)
Fixpoint setitem `{EqDecision K} {V} (k : K) (v : V) (d : list (K * V))
  : list (K * V) :=
  match d with
  | [] => [(k, v)]
  | (k', v') :: rest =>
      if decide (k = k') then (k, v) :: rest
      else (k', v') :: setitem k v rest
  end.

(** [sum(xs)] *)
Definition sum (xs : list Q) : Q := foldl Qplus 0%Q xs.

(** Exceptions the modelled code can raise. *)
Inductive exn := KeyError | ZeroDivisionError | ValueError.

Inductive result (A : Type) : Type :=
| Ok (a : A)
| Raise (e : exn).
Arguments Ok {A} a.
Arguments Raise {A} e.

Definition bind {A B} (m : result A) (k : A -> result B) : result B :=
  match m with
  | Ok a => k a
  | Raise e => Raise e
  end.

(** [d[k]] on a dict. *)
Definition getitem `{Countable K} {V} (d : gmap K V) (k : K) : result V :=
  match d !! k with
  | Some v => Ok v
  | None => Raise KeyError
  end.

(** [x / y] on floats. *)
Definition truediv (x y : Q) : result Q :=
  if Qeq_bool y 0 then Raise ZeroDivisionError else Ok (x / y)%Q.

End Py.

#[global] Instance result_ret : MRet Py.result := @Py.Ok.
#[global] Instance result_bind : MBind Py.result :=
  fun A B k m => Py.bind m k.

(** ** The random source

    [random.random()] is a 53-bit integer scaled by [2^-53].  The source
    is a sequence of integers read at a cursor; an exponential variate
    (whose logarithm is not rational) is supplied by the source as a
    unit-rate sample. *)

Module Random.

Record Rng := mkRng {
  draws : nat -> Z;
  expo : nat -> Q;
  cursor : nat
}.

Definition advance (r : Rng) : Rng :=
  {| draws := draws r; expo := expo r; cursor := S (cursor r) |}.

Definition two53 : Z := 9007199254740992.

Definition random (r : Rng) : Q * Rng :=
  ((draws r (cursor r) mod two53)%Z # Z.to_pos two53, advance r).

(** [random.uniform(a, b)] is [a + (b - a) * random()]. *)
Definition uniform (a b : Q) (r : Rng) : Q * Rng :=
  let '(u, r') := random r in ((a + (b - a) * u)%Q, r').

(** [random.expovariate(lambd)] *)
Definition expovariate (lambd : Q) (r : Rng) : Q * Rng :=
  ((expo r (cursor r) / lambd)%Q, advance r).

(** A uniform integer in [[0, n)], for [0 < n]. *)
Definition randbelow (n : Z) (r : Rng) : Z * Rng :=
  ((draws r (cursor r) mod n)%Z, advance r).

(** [random.randint(a, b)] *)
Definition randint (a b : Z) (r : Rng) : Z * Rng :=
  let '(k, r') := randbelow (b - a + 1) r in ((a + k)%Z, r').

Definition swap {A} (i j : nat) (l : list A) : list A :=
  match l !! i, l !! j with
  | Some x, Some y => <[j := x]> (<[i := y]> l)
  | _, _ => l
  end.

(** [random.shuffle(x)]: for [i] from [len(x) - 1] down to [1], swap
    [x[i]] with [x[randbelow(i + 1)]]. *)
Fixpoint shuffle_from {A} (i : nat) (l : list A) (r : Rng) : list A * Rng :=
  match i with
  | O => (l, r)
  | S i' =>
      let '(j, r') := randbelow (Z.of_nat (S i)) r in
      shuffle_from i' (swap i (Z.to_nat j) l) r'
  end.

Definition shuffle {A} (l : list A) (r : Rng) : list A * Rng :=
  shuffle_from (length l - 1) l r.

(** [random.sample(population, k)] for a short list: [k] times, pick
    [pool[j]] for [j = randbelow(n - i)] and overwrite it with the
    last live element of the pool.  [k] larger than the population
    raises [ValueError]. *)
Fixpoint sample_loop {A} (k n : nat) (pool : list A) (r : Rng) : list A * Rng :=
  match k with
  | O => ([], r)
  | S k' =>
      let '(j, r1) := randbelow (Z.of_nat n) r in
      match pool !! (Z.to_nat j), pool !! (n - 1)%nat with
      | Some x, Some y =>
          let '(rest, r2) :=
            sample_loop k' (n - 1) (<[Z.to_nat j := y]> pool) r1 in
          (x :: rest, r2)
      | _, _ => ([], r1)
      end
  end.

Definition sample {A} (population : list A) (k : nat) (r : Rng)
  : Py.result (list A * Rng) :=
  if decide (k <= length population)%nat
  then Py.Ok (sample_loop k (length population) population r)
  else Py.Raise Py.ValueError.

End Random.

(** ** models.py *)

Module Models.

Inductive NodeId := EDGE1 | EDGE2 | CORE1 | CORE2 | CLOUD1.

(** [for node in NodeId] *)
Definition all_nodes : list NodeId := [EDGE1; EDGE2; CORE1; CORE2; CLOUD1].

Inductive FailureType := CRASH | OMISSION | BYZANTINE | NETWORK_PARTITION.

Inductive LoadBalancingStrategy :=
| WEIGHTED_ROUND_ROBIN | LEAST_CONNECTIONS | RESOURCE_AWARE.

#[global] Instance NodeId_eq_dec : EqDecision NodeId.
Proof. solve_decision. Defined.

#[global] Instance FailureType_eq_dec : EqDecision FailureType.
Proof. solve_decision. Defined.

#[global] Instance LoadBalancingStrategy_eq_dec : EqDecision LoadBalancingStrategy.
Proof. solve_decision. Defined.

Definition NodeId_to_nat (n : NodeId) : nat :=
  match n with
  | EDGE1 => 0 | EDGE2 => 1 | CORE1 => 2 | CORE2 => 3 | CLOUD1 => 4
  end.

Definition NodeId_of_nat (k : nat) : option NodeId :=
  match k with
  | 0 => Some EDGE1 | 1 => Some EDGE2 | 2 => Some CORE1
  | 3 => Some CORE2 | 4 => Some CLOUD1 | _ => None
  end.

#[global] Instance NodeId_countable : Countable NodeId.
Proof. apply (inj_countable NodeId_to_nat NodeId_of_nat). by intros []. Defined.

(** [NodeId.X.value] *)
Definition node_value (n : NodeId) : string :=
  match n with
  | EDGE1 => "EDGE1" | EDGE2 => "EDGE2" | CORE1 => "CORE1"
  | CORE2 => "CORE2" | CLOUD1 => "CLOUD1"
  end.

(** The bookkeeping [timestamp] of [NodeMetrics] is never read and is
    left out. *)
Record NodeMetrics := mkNodeMetrics {
  latency : Q;
  throughput : Q;
  packet_loss : Q;
  cpu_utilization : Q;
  memory_usage : Q;
  transactions_per_sec : Z;
  lock_contention : Q
}.

Record ServiceRequest := mkServiceRequest {
  service_id : string;
  cpu_requirement : Q;
  memory_requirement : Q;
  transaction_load : Z;
  priority : Z;
  timestamp : Q
}.

Record FailureScenario := mkFailureScenario {
  node_id : NodeId;
  failure_type : FailureType;
  start_time : Q;
  duration : Q;
  severity : Q;
  recovery_time : option Q
}.

Record MigrationEvent := mkMigrationEvent {
  mig_service_id : string;
  source_node : NodeId;
  destination_node : NodeId;
  mig_start_time : Q;
  completion_time : option Q;
  success : bool;
  reason : string
}.

(** [load_balance_index] is the one real-valued field: it is
    computed with a square root. *)
Record LoadBalancingMetrics := mkLoadBalancingMetrics {
  cpu_distribution : NodeId -> Q;
  memory_distribution : NodeId -> Q;
  transaction_distribution : NodeId -> Z;
  load_balance_index : R;
  total_services : Z;
  migrations : Z;
  last_update_timestamp : Q
}.

Record SimulationState := mkSimulationState {
  current_time : Q;
  active_nodes : gset NodeId;
  failed_nodes : gset NodeId;
  node_metrics : gmap NodeId NodeMetrics;
  service_allocations : gmap string NodeId;
  active_failures : list FailureScenario;
  migration_history : list MigrationEvent;
  load_balancing_metrics : LoadBalancingMetrics
}.

Record SimulationConfig := mkSimulationConfig {
  simulation_duration : Q;
  time_step : Q;
  failure_injection_enabled : bool;
  network_delay_simulation_enabled : bool;
  adaptive_migration_enabled : bool;
  java_integration_enabled : bool;
  node_baseline_metrics : gmap NodeId NodeMetrics
}.

(** The table [SimulationConfig.__post_init__] installs when no
    baseline is given. *)
Definition default_node_baseline_metrics : gmap NodeId NodeMetrics :=
  <[EDGE1 := mkNodeMetrics 12.0 500.0 0.1 45.0 8.0 150 8.0]>
  (<[EDGE2 := mkNodeMetrics 15.0 470.0 0.2 50.0 4.5 100 12.0]>
  (<[CORE1 := mkNodeMetrics 8.0 1000.0 0.05 60.0 12.0 250 5.0]>
  (<[CORE2 := mkNodeMetrics 10.0 950.0 0.08 55.0 10.0 200 10.0]>
  (<[CLOUD1 := mkNodeMetrics 22.0 1250.0 0.15 72.0 16.0 300 15.0]> ∅)))).

End Models.

(** ** failure_injection.py *)

Module FailureInjection.
Import Models.
Local Open Scope Q_scope.

Record FailureProfile := mkFailureProfile {
  fp_node_id : NodeId;
  fp_failure_type : FailureType;
  base_failure_rate : Q;
  mean_duration : Q;
  severity_range : Q * Q
}.

(** [self.failure_profiles], a dict over all five nodes. *)
Definition failure_profiles (n : NodeId) : FailureProfile :=
  match n with
  | EDGE1 => mkFailureProfile EDGE1 CRASH 0.1 30.0 (0.8, 1.0)
  | EDGE2 => mkFailureProfile EDGE2 OMISSION 0.15 45.0 (0.3, 0.7)
  | CORE1 => mkFailureProfile CORE1 BYZANTINE 0.05 120.0 (0.9, 1.0)
  | CORE2 => mkFailureProfile CORE2 CRASH 0.08 25.0 (0.7, 0.9)
  | CLOUD1 => mkFailureProfile CLOUD1 OMISSION 0.12 60.0 (0.4, 0.8)
  end.

Record FailureInjector := mkFailureInjector {
  failure_history : list FailureScenario;
  last_failure_times : gmap NodeId Q
}.

Definition cascading_failure_probability : Q := 0.2.
Definition network_partition_probability : Q := 0.05.

(** [FailureInjector()] *)
Definition init : FailureInjector := mkFailureInjector [] ∅.

Definition _calculate_load_factor (node_id : NodeId) (state : SimulationState) : Q :=
  let metrics := load_balancing_metrics state in
  let cpu_load := cpu_distribution metrics node_id in
  let memory_load := memory_distribution metrics node_id in
  let transaction_load := transaction_distribution metrics node_id in
  match node_metrics state !! node_id with
  | None => 0.0
  | Some nm =>
      let cpu_ratio :=
        if Py.Qltb 0 (cpu_utilization nm)
        then cpu_load / cpu_utilization nm else 0 in
      let memory_ratio :=
        if Py.Qltb 0 (memory_usage nm)
        then memory_load / memory_usage nm else 0 in
      let transaction_ratio :=
        if (0 <? transactions_per_sec nm)%Z
        then Py.of_int transaction_load / Py.of_int (transactions_per_sec nm)
        else 0 in
      let load_factor := (cpu_ratio + memory_ratio + transaction_ratio) / 3.0 in
      Py.min 2.0 (Py.max 0.0 load_factor)
  end.

Definition _should_inject_failure (inj : FailureInjector) (node_id : NodeId)
    (current_time : Q) (state : SimulationState) (rng : Random.Rng)
  : bool * Random.Rng :=
  let profile := failure_profiles node_id in
  let base_prob_per_second := base_failure_rate profile / 3600.0 in
  let load_factor := _calculate_load_factor node_id state in
  let adjusted_prob := base_prob_per_second * (1.0 + load_factor) in
  let time_since_last_failure :=
    current_time - default 0 (last_failure_times inj !! node_id) in
  let adjusted_prob :=
    if Py.Qltb time_since_last_failure 300.0
    then adjusted_prob * (time_since_last_failure / 300.0)
    else adjusted_prob in
  let '(u, rng') := Random.random rng in
  (Py.Qltb u adjusted_prob, rng').

Definition _create_failure_scenario (node_id : NodeId) (current_time : Q)
    (rng : Random.Rng) : FailureScenario * Random.Rng :=
  let profile := failure_profiles node_id in
  let '(d, rng1) := Random.expovariate (1.0 / mean_duration profile) rng in
  let d := Py.max 5.0 (Py.min 600.0 d) in
  let '(s, rng2) :=
    Random.uniform (fst (severity_range profile)) (snd (severity_range profile)) rng1 in
  (mkFailureScenario node_id (fp_failure_type profile) current_time d s None, rng2).

(** The static dependency table. *)
Definition _get_dependent_nodes (failed_node : NodeId) : list NodeId :=
  match failed_node with
  | CORE1 => [EDGE1; EDGE2]
  | CORE2 => [EDGE1; EDGE2]
  | CLOUD1 => [CORE1; CORE2]
  | EDGE1 => []
  | EDGE2 => []
  end.

(** The body of the inner loop of [_evaluate_cascading_failures]: one
    dependent of one trigger failure. *)
Definition cascade_to_dependent (failure : FailureScenario)
    (initial_failures : list FailureScenario) (current_time : Q)
    (state : SimulationState)
    (acc : list FailureScenario * Random.Rng) (dependent_node : NodeId)
  : list FailureScenario * Random.Rng :=
  let '(cascading_failures, rng) := acc in
  if decide ((dependent_node ∉ failed_nodes state)
             ∧ (dependent_node ∉ (node_id <$> initial_failures)))
  then
    let '(delay, rng1) := Random.uniform 5.0 30.0 rng in
    (cascading_failures ++
       [mkFailureScenario dependent_node
          (fp_failure_type (failure_profiles dependent_node))
          (current_time + delay)
          (duration failure * 0.7)
          (severity failure * 0.6)
          None],
     rng1)
  else acc.

(** The body of the outer loop: one trigger failure. *)
Definition cascade_from (initial_failures : list FailureScenario)
    (current_time : Q) (state : SimulationState)
    (acc : list FailureScenario * Random.Rng) (failure : FailureScenario)
  : list FailureScenario * Random.Rng :=
  let '(cascading_failures, rng) := acc in
  let '(u, rng1) := Random.random rng in
  if Py.Qltb u cascading_failure_probability
  then foldl (cascade_to_dependent failure initial_failures current_time state)
             (cascading_failures, rng1)
             (_get_dependent_nodes (node_id failure))
  else (cascading_failures, rng1).

Definition _evaluate_cascading_failures (initial_failures : list FailureScenario)
    (current_time : Q) (state : SimulationState) (rng : Random.Rng)
  : list FailureScenario * Random.Rng :=
  foldl (cascade_from initial_failures current_time state) ([], rng) initial_failures.

Definition _create_network_partition (current_time : Q) (state : SimulationState)
    (rng : Random.Rng) : list FailureScenario * Random.Rng :=
  let '(shuffled, rng1) := Random.shuffle all_nodes rng in
  let '(partition_size, rng2) :=
    Random.randint 1 (Z.of_nat (length shuffled) - 1) rng1 in
  let partitioned_nodes := take (Z.to_nat partition_size) shuffled in
  let '(partition_duration, rng3) := Random.uniform 60.0 300.0 rng2 in
  (omap (fun node =>
           if decide (node ∉ failed_nodes state)
           then Some (mkFailureScenario node NETWORK_PARTITION current_time
                        partition_duration 0.5 None)
           else None)
        partitioned_nodes,
   rng3).

(** The body of the first loop of [inject_failures]: one node. *)
Definition inject_on_node (current_time : Q) (state : SimulationState)
    (acc : list FailureScenario * FailureInjector * Random.Rng) (n : NodeId)
  : list FailureScenario * FailureInjector * Random.Rng :=
  let '(new_failures, inj, rng) := acc in
  if decide (n ∈ failed_nodes state) then acc
  else
    let '(hit, rng1) := _should_inject_failure inj n current_time state rng in
    if hit then
      let '(failure, rng2) := _create_failure_scenario n current_time rng1 in
      (new_failures ++ [failure],
       mkFailureInjector (failure_history inj ++ [failure])
                         (<[n := current_time]> (last_failure_times inj)),
       rng2)
    else (new_failures, inj, rng1).

(** The failures the first loop creates: the triggers of this tick. *)
Definition initial_failures (inj : FailureInjector) (current_time : Q)
    (state : SimulationState) (rng : Random.Rng)
  : list FailureScenario * FailureInjector * Random.Rng :=
  foldl (inject_on_node current_time state) ([], inj, rng) all_nodes.

Definition inject_failures (inj : FailureInjector) (current_time : Q)
    (state : SimulationState) (rng : Random.Rng)
  : list FailureScenario * FailureInjector * Random.Rng :=
  let '(new_failures, inj1, rng1) := initial_failures inj current_time state rng in
  let '(cascading_failures, rng2) :=
    match new_failures with
    | [] => ([], rng1)
    | _ :: _ => _evaluate_cascading_failures new_failures current_time state rng1
    end in
  let new_failures := new_failures ++ cascading_failures in
  let '(u, rng3) := Random.random rng2 in
  if Py.Qltb u (network_partition_probability / 3600.0)
  then
    let '(partition_failures, rng4) := _create_network_partition current_time state rng3 in
    (new_failures ++ partition_failures, inj1, rng4)
  else (new_failures, inj1, rng3).


End FailureInjection.

(** ** adaptive_migration.py *)

Module AdaptiveMigration.
Import Models.
Local Open Scope Q_scope.

Record MigrationDecision := mkMigrationDecision {
  d_service_id : string;
  d_source_node : NodeId;
  d_destination_node : NodeId;
  d_reason : string;
  d_priority : Q;
  d_estimated_benefit : Q
}.

(** [node_performance_history] is a [defaultdict(list)]: a total
    function whose default is the empty list. *)
Record AdaptiveMigrationEngine := mkEngine {
  last_migration_times : gmap string Q;
  active_migrations : gset string;
  migration_history : list MigrationEvent;
  node_performance_history : NodeId -> list (Q * Q);
  load_imbalance_history : list (Q * R)
}.

Definition migration_cooldown : Q := 30.0.
Definition max_concurrent_migrations : nat := 3.
Definition migration_success_rate : Q := 0.95.

(** [AdaptiveMigrationEngine()] *)
Definition init : AdaptiveMigrationEngine :=
  mkEngine ∅ ∅ [] (fun _ => []) [].

Definition with_active (eng : AdaptiveMigrationEngine) (a : gset string)
  : AdaptiveMigrationEngine :=
  mkEngine (last_migration_times eng) a (migration_history eng)
           (node_performance_history eng) (load_imbalance_history eng).

(** [_update_performance_history]; [now] is its own reading of the
    clock. *)
Definition _update_performance_history (eng : AdaptiveMigrationEngine)
    (state : SimulationState) (now : Q) : AdaptiveMigrationEngine :=
  let cutoff_time := now - 300.0 in
  let record_node (h : NodeId -> list (Q * Q)) (n : NodeId) :=
    let cpu_load := cpu_distribution (load_balancing_metrics state) n in
    <[n := List.filter (fun '(t, _) => Py.Qleb cutoff_time t)
                       (h n ++ [(now, cpu_load)])]> h in
  let nph := foldl record_node (node_performance_history eng) all_nodes in
  let lbi := load_balance_index (load_balancing_metrics state) in
  let lih :=
    List.filter (fun '(t, _) => Py.Qleb cutoff_time t)
                (load_imbalance_history eng ++ [(now, (1 - lbi)%R)]) in
  mkEngine (last_migration_times eng) (active_migrations eng)
           (migration_history eng) nph lih.

(** The test of [_identify_overloaded_nodes] for one node: not failed,
    metrics known, some resource above 80% of its capacity. *)
Definition is_overloaded (state : SimulationState) (n : NodeId) : bool :=
  if decide (n ∈ failed_nodes state) then false
  else match node_metrics state !! n with
       | None => false
       | Some nm =>
           let lbm := load_balancing_metrics state in
           Py.Qltb (cpu_utilization nm * 0.8) (cpu_distribution lbm n)
           || Py.Qltb (memory_usage nm * 0.8) (memory_distribution lbm n)
           || Py.Qltb (Py.of_int (transactions_per_sec nm) * 0.8)
                      (Py.of_int (transaction_distribution lbm n))
       end.

Definition _identify_overloaded_nodes (state : SimulationState) : list NodeId :=
  List.filter (is_overloaded state) (elements (active_nodes state)).

Definition is_underloaded (state : SimulationState) (n : NodeId) : bool :=
  if decide (n ∈ failed_nodes state) then false
  else match node_metrics state !! n with
       | None => false
       | Some nm =>
           let lbm := load_balancing_metrics state in
           Py.Qltb (cpu_distribution lbm n) (cpu_utilization nm * 0.5)
           && Py.Qltb (memory_distribution lbm n) (memory_usage nm * 0.5)
           && Py.Qltb (Py.of_int (transaction_distribution lbm n))
                      (Py.of_int (transactions_per_sec nm) * 0.5)
       end.

Definition _identify_underloaded_nodes (state : SimulationState) : list NodeId :=
  List.filter (is_underloaded state) (elements (active_nodes state)).

(** The test of [_find_migratable_services] for one allocation. *)
Definition is_migratable (eng : AdaptiveMigrationEngine) (n : NodeId)
    (current_time : Q) (item : string * NodeId) : bool :=
  let '(sid, allocated_node) := item in
  if decide (allocated_node ≠ n) then false
  else
    let last_migration_time := default 0 (last_migration_times eng !! sid) in
    if Py.Qltb (current_time - last_migration_time) migration_cooldown then false
    else if decide (sid ∈ active_migrations eng) then false
    else true.

Definition _find_migratable_services (eng : AdaptiveMigrationEngine)
    (n : NodeId) (state : SimulationState) (current_time : Q) : list string :=
  fst <$> List.filter (is_migratable eng n current_time)
                      (map_to_list (service_allocations state)).

Definition _get_node_reliability_score (n : NodeId) : Q :=
  match n with
  | EDGE1 => 0.9 | EDGE2 => 0.7 | CORE1 => 0.6 | CORE2 => 0.8 | CLOUD1 => 0.7
  end.

Definition _get_node_layer (n : NodeId) : Z :=
  match n with
  | EDGE1 | EDGE2 => 0
  | CORE1 | CORE2 => 1
  | CLOUD1 => 2
  end.

Definition _get_layer_distance (layer1 layer2 : Z) : Z := Z.abs (layer1 - layer2).

Definition _get_network_proximity_score (source destination : NodeId) : Q :=
  let source_layer := _get_node_layer source in
  let dest_layer := _get_node_layer destination in
  if decide (source_layer = dest_layer) then 1.0
  else if decide (Z.abs (_get_layer_distance source_layer dest_layer) = 1%Z) then 0.7
  else 0.4.

Definition _calculate_destination_score (sid : string) (source destination : NodeId)
    (state : SimulationState) : Py.result Q :=
  match node_metrics state !! destination with
  | None => Py.Ok 0.0
  | Some dm =>
      let lbm := load_balancing_metrics state in
      let current_cpu := cpu_distribution lbm destination in
      let current_memory := memory_distribution lbm destination in
      let current_transactions := transaction_distribution lbm destination in
      let cpu_u :=
        if Py.Qltb 0 (cpu_utilization dm)
        then current_cpu / cpu_utilization dm else 0 in
      let memory_u :=
        if Py.Qltb 0 (memory_usage dm)
        then current_memory / memory_usage dm else 0 in
      let transaction_u :=
        if (0 <? transactions_per_sec dm)%Z
        then Py.of_int current_transactions / Py.of_int (transactions_per_sec dm)
        else 0 in
      let capacity_score :=
        (1.0 - cpu_u) * 0.4 + (1.0 - memory_u) * 0.3 + (1.0 - transaction_u) * 0.3 in
      inv_latency ← Py.truediv 1.0 (latency dm);
      let performance_score := inv_latency * (throughput dm / 1000.0) in
      let reliability_score := _get_node_reliability_score destination in
      let proximity_score := _get_network_proximity_score source destination in
      Py.Ok (capacity_score * 0.4 + performance_score * 0.3
             + reliability_score * 0.2 + proximity_score * 0.1)
  end.

(** The loop of [_find_best_destination]; [None] as best score is
    [float('-inf')]. *)
Definition best_destination_step (sid : string) (source : NodeId)
    (state : SimulationState)
    (acc : Py.result (option Q * option NodeId)) (destination : NodeId)
  : Py.result (option Q * option NodeId) :=
  '(best_score, best_node) ← acc;
  if decide (destination = source) then Py.Ok (best_score, best_node)
  else
    score ← _calculate_destination_score sid source destination state;
    match best_score with
    | Some b =>
        if Py.Qltb b score then Py.Ok (Some score, Some destination)
        else Py.Ok (best_score, best_node)
    | None => Py.Ok (Some score, Some destination)
    end.

Definition _find_best_destination (sid : string) (source : NodeId)
    (underloaded_nodes : list NodeId) (state : SimulationState)
  : Py.result (option NodeId) :=
  match underloaded_nodes with
  | [] => Py.Ok None
  | _ =>
      '(_, best_node) ←
        foldl (best_destination_step sid source state) (Py.Ok (None, None))
              underloaded_nodes;
      Py.Ok best_node
  end.

Definition _calculate_load_trend_priority (eng : AdaptiveMigrationEngine)
    (n : NodeId) : Q :=
  let history := node_performance_history eng n in
  if decide (length history < 2)%nat then 0.0
  else
    let recent_loads := snd <$> drop (length history - 10) history in
    if decide (length recent_loads < 2)%nat then 0.0
    else
      let trend :=
        (default 0 (last recent_loads) - default 0 (head recent_loads))
        / Py.of_int (Z.of_nat (length recent_loads)) in
      Py.min 1.0 (Py.max 0.0 (trend / 10.0)).

Definition _calculate_migration_priority (eng : AdaptiveMigrationEngine)
    (sid : string) (source destination : NodeId) (state : SimulationState) : Q :=
  match node_metrics state !! source with
  | None => 0.0
  | Some sm =>
      let lbm := load_balancing_metrics state in
      let current_cpu := cpu_distribution lbm source in
      let cpu_overload := Py.max 0.0 (current_cpu - cpu_utilization sm * 0.8) in
      let cpu_overload_ratio :=
        if Py.Qltb 0 (cpu_utilization sm)
        then cpu_overload / (cpu_utilization sm * 0.2) else 0 in
      let current_memory := memory_distribution lbm source in
      let memory_overload := Py.max 0.0 (current_memory - memory_usage sm * 0.8) in
      let memory_overload_ratio :=
        if Py.Qltb 0 (memory_usage sm)
        then memory_overload / (memory_usage sm * 0.2) else 0 in
      let overload_priority :=
        Py.min 1.0 (Py.max cpu_overload_ratio memory_overload_ratio) in
      let trend_priority := _calculate_load_trend_priority eng source in
      let priority := overload_priority * 0.7 + trend_priority * 0.3 in
      Py.min 1.0 (Py.max 0.0 priority)
  end.

Definition _estimate_migration_benefit (sid : string) (source destination : NodeId)
    (state : SimulationState) : Q :=
  let estimated_cpu_reduction := 5.0 in
  let estimated_memory_reduction := 0.5 in
  match node_metrics state !! source with
  | None => 0.0
  | Some sm =>
      let cpu_benefit :=
        if Py.Qltb 0 (cpu_utilization sm)
        then estimated_cpu_reduction / cpu_utilization sm else 0 in
      let memory_benefit :=
        if Py.Qltb 0 (memory_usage sm)
        then estimated_memory_reduction / memory_usage sm else 0 in
      let benefit := (cpu_benefit + memory_benefit) / 2.0 in
      Py.min 1.0 (Py.max 0.0 benefit)
  end.

(** The inner loop body of [_generate_migration_decisions]. *)
Definition decide_service (eng : AdaptiveMigrationEngine) (state : SimulationState)
    (source : NodeId) (underloaded_nodes : list NodeId)
    (acc : Py.result (list MigrationDecision)) (sid : string)
  : Py.result (list MigrationDecision) :=
  decisions ← acc;
  best ← _find_best_destination sid source underloaded_nodes state;
  match best with
  | Some best_destination =>
      let priority :=
        _calculate_migration_priority eng sid source best_destination state in
      let estimated_benefit :=
        _estimate_migration_benefit sid source best_destination state in
      Py.Ok (decisions ++
               [mkMigrationDecision sid source best_destination
                  ("Load balancing: " +:+ node_value source +:+ " overloaded")
                  priority estimated_benefit])
  | None => Py.Ok decisions
  end.

Definition _generate_migration_decisions (eng : AdaptiveMigrationEngine)
    (state : SimulationState) (overloaded_nodes underloaded_nodes : list NodeId)
    (current_time : Q) : Py.result (list MigrationDecision) :=
  foldl (fun acc source =>
           foldl (decide_service eng state source underloaded_nodes) acc
                 (_find_migratable_services eng source state current_time))
        (Py.Ok []) overloaded_nodes.

Definition _execute_migration_decision (eng : AdaptiveMigrationEngine)
    (decision : MigrationDecision) (current_time : Q) (rng : Random.Rng)
  : MigrationEvent * AdaptiveMigrationEngine * Random.Rng :=
  let '(u, rng1) := Random.random rng in
  let ok := Py.Qltb u migration_success_rate in
  let '(migration_duration, rng2) := Random.uniform 1.0 10.0 rng1 in
  let completion := current_time + migration_duration in
  let migration :=
    mkMigrationEvent (d_service_id decision) (d_source_node decision)
      (d_destination_node decision) current_time
      (if ok then Some completion else None) ok (d_reason decision) in
  let eng1 :=
    mkEngine (<[d_service_id decision := current_time]> (last_migration_times eng))
             (active_migrations eng)
             (migration_history eng ++ [migration])
             (node_performance_history eng) (load_imbalance_history eng) in
  (migration,
   if ok then eng1
   else with_active eng1 (active_migrations eng1 ∖ {[d_service_id decision]}),
   rng2).

(** [sorted(decisions, key=lambda d: d.priority, reverse=True)]: a
    stable sort, highest priority first. *)
Fixpoint insert_by_priority (d : MigrationDecision) (l : list MigrationDecision)
  : list MigrationDecision :=
  match l with
  | [] => [d]
  | x :: xs =>
      if Py.Qltb (d_priority x) (d_priority d) then d :: x :: xs
      else x :: insert_by_priority d xs
  end.

Definition sorted_by_priority (l : list MigrationDecision) : list MigrationDecision :=
  foldl (fun acc d => insert_by_priority d acc) [] l.

(** The body of the execution loop of [evaluate_migrations].  The
    [break] at the cap is the first branch: once the cap is reached
    every later iteration is skipped.  A [MigrationEvent] is always
    truthy, so the service id is always added to [active_migrations]. *)
Definition execute_step (current_time : Q)
    (acc : list MigrationEvent * AdaptiveMigrationEngine * Random.Rng)
    (decision : MigrationDecision)
  : list MigrationEvent * AdaptiveMigrationEngine * Random.Rng :=
  let '(migrations, eng, rng) := acc in
  if decide (max_concurrent_migrations <= length migrations)%nat then acc
  else
    let '(migration, eng1, rng1) :=
      _execute_migration_decision eng decision current_time rng in
    (migrations ++ [migration],
     with_active eng1 ({[d_service_id decision]} ∪ active_migrations eng1),
     rng1).

(** [evaluate_migrations(state)]; [current_time] is its reading of the
    clock and [history_time] the later one of
    [_update_performance_history]. *)
Definition evaluate_migrations (eng : AdaptiveMigrationEngine)
    (state : SimulationState) (current_time history_time : Q) (rng : Random.Rng)
  : Py.result (list MigrationEvent * AdaptiveMigrationEngine * Random.Rng) :=
  if decide (max_concurrent_migrations <= size (active_migrations eng))%nat
  then Py.Ok ([], eng, rng)
  else
    let eng1 := _update_performance_history eng state history_time in
    let overloaded_nodes := _identify_overloaded_nodes state in
    let underloaded_nodes := _identify_underloaded_nodes state in
    match overloaded_nodes, underloaded_nodes with
    | [], _ | _, [] => Py.Ok ([], eng1, rng)
    | _, _ =>
        migration_decisions ←
          _generate_migration_decisions eng1 state overloaded_nodes
            underloaded_nodes current_time;
        Py.Ok (foldl (execute_step current_time) ([], eng1, rng)
                     (sorted_by_priority migration_decisions))
    end.

Definition complete_migration (eng : AdaptiveMigrationEngine) (sid : string)
  : AdaptiveMigrationEngine :=
  with_active eng (active_migrations eng ∖ {[sid]}).

End AdaptiveMigration.

(** ** redundancy_failover.py

    The replication groups, strategy selection and single-node failover.
    [replication_groups] is searched in insertion order, so it is an
    association list.  The multi-node and partition simulations are not
    part of this development. *)

Module RedundancyFailover.
Import Models.
Local Open Scope Q_scope.

Inductive RedundancyStrategy :=
| ACTIVE_ACTIVE | ACTIVE_PASSIVE | N_WAY_REPLICATION | GEOGRAPHIC_REDUNDANCY.

Inductive FailoverMode := AUTOMATIC | SEMI_AUTOMATIC | MANUAL.

#[global] Instance RedundancyStrategy_eq_dec : EqDecision RedundancyStrategy.
Proof. solve_decision. Defined.

Record RiskAssessment := mkRiskAssessment {
  ra_node_id : NodeId;
  risk_score : Q;
  ra_failure_type : FailureType;
  criticality_score : Q;
  dependent_nodes : gset NodeId;
  cascade_risk_score : Q;
  mitigation_strategies : gset string
}.

Record ReplicationGroup := mkReplicationGroup {
  group_id : string;
  primary_node : NodeId;
  replica_nodes : gset NodeId;
  strategy : RedundancyStrategy;
  replication_factor : Z;
  consistency_level : string;
  last_sync_time : Q
}.

Record FailoverEvent := mkFailoverEvent {
  event_id : string;
  failed_node : NodeId;
  failover_node : NodeId;
  failover_mode : FailoverMode;
  fo_start_time : Q;
  fo_completion_time : option Q;
  fo_success : bool;
  services_migrated : list string;
  downtime_seconds : Q;
  fo_reason : string
}.

Record RedundancyFailoverManager := mkManager {
  replication_groups : list (string * ReplicationGroup);
  failover_history : list FailoverEvent
}.

Definition high_risk_threshold : Q := 0.7.
Definition critical_risk_threshold : Q := 0.85.

(** [RedundancyFailoverManager()] *)
Definition init : RedundancyFailoverManager := mkManager [] [].

Definition _select_redundancy_strategy (risk : RiskAssessment) : RedundancyStrategy :=
  if Py.Qleb critical_risk_threshold (risk_score risk) then
    if decide (ra_failure_type risk = BYZANTINE) then N_WAY_REPLICATION
    else ACTIVE_ACTIVE
  else if Py.Qleb high_risk_threshold (risk_score risk) then
    if decide (2 < size (dependent_nodes risk))%nat then ACTIVE_ACTIVE
    else ACTIVE_PASSIVE
  else if Py.Qleb 0.5 (risk_score risk) then ACTIVE_PASSIVE
  else GEOGRAPHIC_REDUNDANCY.

(** The table [node_failure_types] of [_select_replica_nodes]. *)
Definition node_failure_types (n : NodeId) : FailureType :=
  match n with
  | EDGE1 => CRASH | EDGE2 => OMISSION | CORE1 => BYZANTINE
  | CORE2 => CRASH | CLOUD1 => OMISSION
  end.

Definition replica_candidates (primary : NodeId) (primary_failure_type : FailureType)
    (count : nat) : list NodeId :=
  let candidates :=
    List.filter (fun n => bool_decide (n ≠ primary
                                       ∧ node_failure_types n ≠ primary_failure_type))
                all_nodes in
  if decide (length candidates < count)%nat
  then candidates ++
       List.filter (fun n => bool_decide (n ≠ primary ∧ n ∉ candidates)) all_nodes
  else candidates.

Definition _select_replica_nodes (primary : NodeId)
    (primary_failure_type : FailureType) (count : nat) (rng : Random.Rng)
  : Py.result (gset NodeId * Random.Rng) :=
  let candidates := replica_candidates primary primary_failure_type count in
  '(selected, rng') ← Random.sample candidates (Nat.min count (length candidates)) rng;
  Py.Ok (list_to_set selected, rng').

(** [now] is the clock value the new group's [last_sync_time] takes. *)
Definition _create_replication_group_for_node (mgr : RedundancyFailoverManager)
    (risk : RiskAssessment) (strat : RedundancyStrategy) (now : Q)
    (rng : Random.Rng)
  : Py.result (RedundancyFailoverManager * Random.Rng) :=
  let factor : nat :=
    if Py.Qleb critical_risk_threshold (risk_score risk) then 3%nat
    else if Py.Qleb high_risk_threshold (risk_score risk) then 2%nat
    else 1%nat in
  '(replicas, rng') ←
    _select_replica_nodes (ra_node_id risk) (ra_failure_type risk) factor rng;
  let consistency :=
    if decide (ra_failure_type risk = BYZANTINE) then "strong"
    else if decide (ra_failure_type risk = OMISSION) then "causal"
    else "eventual" in
  let gid := "replication_group_" +:+ node_value (ra_node_id risk) in
  let group :=
    mkReplicationGroup gid (ra_node_id risk) replicas strat (Z.of_nat factor)
                       consistency now in
  Py.Ok (mkManager (Py.setitem gid group (replication_groups mgr))
                   (failover_history mgr),
         rng').

(** The loop body of [configure_redundancy_from_risk_assessment]. *)
Definition configure_one (now : Q)
    (acc : Py.result (gmap NodeId RedundancyStrategy
                      * RedundancyFailoverManager * Random.Rng))
    (risk : RiskAssessment)
  : Py.result (gmap NodeId RedundancyStrategy
               * RedundancyFailoverManager * Random.Rng) :=
  '(config, mgr, rng) ← acc;
  let strat := _select_redundancy_strategy risk in
  let config := <[ra_node_id risk := strat]> config in
  if Py.Qleb high_risk_threshold (risk_score risk) then
    '(mgr', rng') ← _create_replication_group_for_node mgr risk strat now rng;
    Py.Ok (config, mgr', rng')
  else Py.Ok (config, mgr, rng).

Definition configure_redundancy_from_risk_assessment
    (mgr : RedundancyFailoverManager) (risk_assessments : list RiskAssessment)
    (now : Q) (rng : Random.Rng)
  : Py.result (gmap NodeId RedundancyStrategy
               * RedundancyFailoverManager * Random.Rng) :=
  foldl (configure_one now) (Py.Ok (∅, mgr, rng)) risk_assessments.

Definition _find_replication_group_for_node (mgr : RedundancyFailoverManager)
    (n : NodeId) : option ReplicationGroup :=
  snd <$> List.find (fun '(_, g) =>
                       bool_decide (n = primary_node g ∨ n ∈ replica_nodes g))
                    (replication_groups mgr).

(** In-place mutation of the group [_find_replication_group_for_node]
    returns: the first entry that contains the node is rewritten. *)
Fixpoint update_found_group (n : NodeId) (f : ReplicationGroup -> ReplicationGroup)
    (groups : list (string * ReplicationGroup)) : list (string * ReplicationGroup) :=
  match groups with
  | [] => []
  | (k, g) :: rest =>
      if bool_decide (n = primary_node g ∨ n ∈ replica_nodes g)
      then (k, f g) :: rest
      else (k, g) :: update_found_group n f rest
  end.

Definition _calculate_failover_target_score (n : NodeId) (state : SimulationState) : Q :=
  match node_metrics state !! n with
  | None => 0.0
  | Some m =>
      let cpu_score := 1.0 - cpu_utilization m / 72.0 in
      let memory_score := 1.0 - memory_usage m / 16.0 in
      let latency_score := 1.0 - latency m / 22.0 in
      let throughput_score := throughput m / 1250.0 in
      cpu_score * 0.3 + memory_score * 0.3
      + latency_score * 0.2 + throughput_score * 0.2
  end.

Definition _select_failover_target (failed : NodeId) (group : ReplicationGroup)
    (state : SimulationState) : option NodeId :=
  let available_replicas :=
    List.filter (fun n => bool_decide (n ∉ failed_nodes state))
                (elements (replica_nodes group)) in
  snd (foldl (fun (acc : option Q * option NodeId) replica =>
                let score := _calculate_failover_target_score replica state in
                match fst acc with
                | Some b => if Py.Qltb b score then (Some score, Some replica) else acc
                | None => (Some score, Some replica)
                end)
             (None, None) available_replicas).

Definition _execute_failover (failed failover : NodeId) (group : ReplicationGroup)
    (state : SimulationState) (rng : Random.Rng) : bool * Q * Random.Rng :=
  let '(lo, hi, success_rate) :=
    match strategy group with
    | ACTIVE_ACTIVE => (0.5, 2.0, 0.98)
    | ACTIVE_PASSIVE => (2.0, 10.0, 0.95)
    | N_WAY_REPLICATION => (5.0, 15.0, 0.92)
    | GEOGRAPHIC_REDUNDANCY => (10.0, 30.0, 0.90)
    end in
  let '(downtime, rng1) := Random.uniform lo hi rng in
  let '(u, rng2) := Random.random rng1 in
  (Py.Qltb u success_rate, downtime, rng2).

Definition with_allocations (state : SimulationState) (a : gmap string NodeId)
  : SimulationState :=
  mkSimulationState (current_time state) (active_nodes state) (failed_nodes state)
    (node_metrics state) a (active_failures state) (migration_history state)
    (load_balancing_metrics state).

Definition _migrate_services_during_failover (failed failover : NodeId)
    (state : SimulationState) : list string * SimulationState :=
  (fst <$> List.filter (fun '(_, n) => bool_decide (n = failed))
                       (map_to_list (service_allocations state)),
   with_allocations state
     ((fun n => if decide (n = failed) then failover else n)
        <$> service_allocations state)).

Definition _update_replication_group_after_failover (group : ReplicationGroup)
    (failed failover : NodeId) : ReplicationGroup :=
  if decide (failed = primary_node group) then
    mkReplicationGroup (group_id group) failover
      ({[failed]} ∪ (replica_nodes group ∖ {[failover]}))
      (strategy group) (replication_factor group) (consistency_level group)
      (last_sync_time group)
  else group.

(** [implement_automated_failover(failed_node, state, failover_mode)];
    [now] is its reading of the clock.  The group object is mutated in
    place, which rewrites its entry of [replication_groups]. *)
Definition implement_automated_failover (mgr : RedundancyFailoverManager)
    (failed : NodeId) (state : SimulationState) (mode : FailoverMode)
    (now : Q) (rng : Random.Rng)
  : option FailoverEvent * RedundancyFailoverManager * SimulationState * Random.Rng :=
  match _find_replication_group_for_node mgr failed with
  | None => (None, mgr, state, rng)
  | Some group =>
      match _select_failover_target failed group state with
      | None => (None, mgr, state, rng)
      | Some target =>
          let eid :=
            "failover_" +:+ node_value failed +:+ "_" +:+ pretty (Py.int now) in
          let '(ok, downtime, rng1) :=
            _execute_failover failed target group state rng in
          let '(migrated, state1) :=
            _migrate_services_during_failover failed target state in
          let event :=
            mkFailoverEvent eid failed target mode now (Some (now + downtime))
              ok migrated downtime
              ("Node " +:+ node_value failed +:+ " failure detected") in
          let groups :=
            if ok then
              update_found_group failed
                (fun g => _update_replication_group_after_failover g failed target)
                (replication_groups mgr)
            else replication_groups mgr in
          (Some event,
           mkManager groups (failover_history mgr ++ [event]),
           state1, rng1)
      end
  end.

End RedundancyFailover.

(** ** load_balancer_simulation.py *)

Module LoadBalancerSimulation.
Import Models.
Local Open Scope Q_scope.

(** [str_hash] is the interpreter's per-process [hash] on strings;
    [network_delay_simulator] is present exactly when the
    configuration enables it. *)
Record Simulation := mkSimulation {
  config : SimulationConfig;
  state : SimulationState;
  failure_injector : option FailureInjection.FailureInjector;
  adaptive_migration_engine : option AdaptiveMigration.AdaptiveMigrationEngine;
  current_strategy : LoadBalancingStrategy;
  node_weights : gmap NodeId Q;
  performance_history : NodeId -> list Q;
  load_balance_history : list R;
  str_hash : string -> Z
}.

Definition with_state (sim : Simulation) (st : SimulationState) : Simulation :=
  mkSimulation (config sim) st (failure_injector sim) (adaptive_migration_engine sim)
    (current_strategy sim) (node_weights sim) (performance_history sim)
    (load_balance_history sim) (str_hash sim).

Definition with_metrics (st : SimulationState) (m : LoadBalancingMetrics)
  : SimulationState :=
  mkSimulationState (current_time st) (active_nodes st) (failed_nodes st)
    (node_metrics st) (service_allocations st) (active_failures st)
    (migration_history st) m.

Definition with_current_time (st : SimulationState) (t : Q) : SimulationState :=
  mkSimulationState t (active_nodes st) (failed_nodes st)
    (node_metrics st) (service_allocations st) (active_failures st)
    (migration_history st) (load_balancing_metrics st).

(** The loop body of [_initialize_node_weights]. *)
Definition weight_of (item : NodeId * NodeMetrics) : Py.result (NodeId * Q) :=
  let '(n, metrics) := item in
  ratio ← Py.truediv (throughput metrics) (latency metrics);
  let base_weight := ratio / 100.0 in
  let reliability_factor :=
    if bool_decide (n ∈ [EDGE1; CORE2]) then 0.9
    else if bool_decide (n ∈ [EDGE2; CLOUD1]) then 0.8
    else 0.7 in
  Py.Ok (n, base_weight * reliability_factor).

Definition _initialize_node_weights (cfg : SimulationConfig)
  : Py.result (gmap NodeId Q) :=
  foldl (fun acc item =>
           weights ← acc;
           '(n, w) ← weight_of item;
           Py.Ok (<[n := w]> weights))
        (Py.Ok ∅) (map_to_list (node_baseline_metrics cfg)).

(** The state [__init__] builds; [now] is the clock. *)
Definition initial_state (cfg : SimulationConfig) (now : Q) : SimulationState :=
  mkSimulationState now (list_to_set all_nodes) ∅ (node_baseline_metrics cfg)
    ∅ [] []
    (mkLoadBalancingMetrics (fun _ => 0.0) (fun _ => 0.0) (fun _ => 0%Z)
       1%R 0 0 now).

(** [LoadBalancerSimulation(config)] *)
Definition init (cfg : SimulationConfig) (now : Q) (hash : string -> Z)
  : Py.result Simulation :=
  weights ← _initialize_node_weights cfg;
  Py.Ok (mkSimulation cfg (initial_state cfg now)
           (if failure_injection_enabled cfg then Some FailureInjection.init else None)
           (if adaptive_migration_enabled cfg then Some AdaptiveMigration.init else None)
           RESOURCE_AWARE weights (fun _ => []) [] hash).

(** [min(xs, key=f)]: the first element with the least key. *)
Definition min_by {A} (key : A -> Q) (xs : list A) : option A :=
  match xs with
  | [] => None
  | x :: rest =>
      Some (foldl (fun best y => if Py.Qltb (key y) (key best) then y else best)
                  x rest)
  end.

Definition _select_node_weighted_round_robin (sim : Simulation)
    (request : ServiceRequest) (available_nodes : list NodeId) : option NodeId :=
  let weighted_nodes :=
    available_nodes ≫= (fun n =>
      let weight := default 1.0 (node_weights sim !! n) in
      let copies := Z.max 1 (Py.int (weight * 10)) in
      replicate (Z.to_nat copies) n) in
  let index :=
    (str_hash sim (service_id request) mod Z.of_nat (length weighted_nodes))%Z in
  weighted_nodes !! Z.to_nat index.

Definition _select_node_least_connections (sim : Simulation)
    (request : ServiceRequest) (available_nodes : list NodeId) : option NodeId :=
  let connection_count (n : NodeId) : Q :=
    Py.of_int (Z.of_nat (length
      (List.filter (fun '(_, m) => bool_decide (m ∈ available_nodes ∧ m = n))
                   (map_to_list (service_allocations (state sim)))))) in
  min_by connection_count available_nodes.

Definition _can_accommodate_request (sim : Simulation) (n : NodeId)
    (request : ServiceRequest) : Py.result bool :=
  metrics ← Py.getitem (node_metrics (state sim)) n;
  let lbm := load_balancing_metrics (state sim) in
  let current_cpu := cpu_distribution lbm n in
  let current_memory := memory_distribution lbm n in
  let current_transactions := transaction_distribution lbm n in
  let cpu_ok :=
    Py.Qleb (current_cpu + cpu_requirement request) (cpu_utilization metrics) in
  let memory_ok :=
    Py.Qleb (current_memory + memory_requirement request) (memory_usage metrics) in
  let transaction_ok :=
    (current_transactions + transaction_load request <=? transactions_per_sec metrics)%Z in
  Py.Ok (cpu_ok && memory_ok && transaction_ok).

Definition _calculate_node_score (sim : Simulation) (n : NodeId)
    (request : ServiceRequest) : Py.result Q :=
  metrics ← Py.getitem (node_metrics (state sim)) n;
  let weight := default 1.0 (node_weights sim !! n) in
  let lbm := load_balancing_metrics (state sim) in
  let current_cpu := cpu_distribution lbm n in
  let current_memory := memory_distribution lbm n in
  let current_transactions := transaction_distribution lbm n in
  let cpu_u :=
    if Py.Qltb 0 (cpu_utilization metrics)
    then current_cpu / cpu_utilization metrics else 0 in
  let memory_u :=
    if Py.Qltb 0 (memory_usage metrics)
    then current_memory / memory_usage metrics else 0 in
  let transaction_u :=
    if (0 <? transactions_per_sec metrics)%Z
    then Py.of_int current_transactions / Py.of_int (transactions_per_sec metrics)
    else 0 in
  let capacity_score :=
    (1.0 - cpu_u) * 0.4 + (1.0 - memory_u) * 0.3 + (1.0 - transaction_u) * 0.3 in
  inv_latency ← Py.truediv 1.0 (latency metrics);
  let performance_score := weight * inv_latency * (throughput metrics / 1000.0) in
  let priority_bonus := Py.of_int (priority request) / 10.0 in
  Py.Ok (capacity_score * 0.6 + performance_score * 0.3 + priority_bonus * 0.1).

Definition _find_least_loaded_node (sim : Simulation) (available_nodes : list NodeId)
  : option NodeId :=
  let lbm := load_balancing_metrics (state sim) in
  min_by (fun n => cpu_distribution lbm n + memory_distribution lbm n
                   + Py.of_int (transaction_distribution lbm n))
         available_nodes.

(** The loop body of [_select_node_resource_aware]; [None] as best
    score is [float('-inf')]. *)
Definition resource_aware_step (sim : Simulation) (request : ServiceRequest)
    (acc : Py.result (option Q * option NodeId)) (n : NodeId)
  : Py.result (option Q * option NodeId) :=
  '(best_score, best_node) ← acc;
  fits ← _can_accommodate_request sim n request;
  if fits : bool then
    score ← _calculate_node_score sim n request;
    match best_score with
    | Some b =>
        if Py.Qltb b score then Py.Ok (Some score, Some n)
        else Py.Ok (best_score, best_node)
    | None => Py.Ok (Some score, Some n)
    end
  else Py.Ok (best_score, best_node).

Definition _select_node_resource_aware (sim : Simulation) (request : ServiceRequest)
    (available_nodes : list NodeId) : Py.result (option NodeId) :=
  '(_, best_node) ←
    foldl (resource_aware_step sim request) (Py.Ok (None, None)) available_nodes;
  match best_node with
  | Some n => Py.Ok (Some n)
  | None => Py.Ok (_find_least_loaded_node sim available_nodes)
  end.

Definition _select_node_for_request (sim : Simulation) (request : ServiceRequest)
  : Py.result (option NodeId) :=
  let available_nodes :=
    elements (active_nodes (state sim) ∖ failed_nodes (state sim)) in
  match available_nodes with
  | [] => Py.Ok None
  | _ =>
      match current_strategy sim with
      | WEIGHTED_ROUND_ROBIN =>
          Py.Ok (_select_node_weighted_round_robin sim request available_nodes)
      | LEAST_CONNECTIONS =>
          Py.Ok (_select_node_least_connections sim request available_nodes)
      | RESOURCE_AWARE => _select_node_resource_aware sim request available_nodes
      end
  end.

(** [net n] is what [NetworkDelaySimulator.get_delay_to_node(n)]
    returns when the simulator is enabled. *)
Definition _simulate_network_delay (sim : Simulation) (n : NodeId)
    (net : NodeId -> Q) (rng : Random.Rng) : Py.result (Q * Random.Rng) :=
  if network_delay_simulation_enabled (config sim) then Py.Ok (net n, rng)
  else
    metrics ← Py.getitem (node_metrics (state sim)) n;
    let base_latency := latency metrics / 1000.0 in
    let '(jitter, rng') := Random.uniform (-0.002) 0.002 rng in
    Py.Ok (Py.max 0.001 (base_latency + jitter), rng').

Definition _update_node_load (sim : Simulation) (n : NodeId)
    (request : ServiceRequest) (now : Q) : Simulation :=
  let m := load_balancing_metrics (state sim) in
  with_state sim (with_metrics (state sim)
    (mkLoadBalancingMetrics
       (<[n := cpu_distribution m n + cpu_requirement request]> (cpu_distribution m))
       (<[n := memory_distribution m n + memory_requirement request]>
          (memory_distribution m))
       (<[n := (transaction_distribution m n + transaction_load request)%Z]>
          (transaction_distribution m))
       (load_balance_index m)
       (total_services m + 1)%Z
       (migrations m)
       now)).

Definition record_allocation (sim : Simulation) (sid : string) (n : NodeId)
  : Simulation :=
  let st := state sim in
  with_state sim
    (mkSimulationState (current_time st) (active_nodes st) (failed_nodes st)
       (node_metrics st) (<[sid := n]> (service_allocations st))
       (active_failures st) (migration_history st) (load_balancing_metrics st)).

(** [_process_service_request(request)].  The [try] / [except] turns
    every exception into [(False, 0.0)]; what was written to the state
    before the exception stays written.  [now] is the clock read by
    [_update_node_load]. *)
Definition _process_service_request (sim : Simulation) (request : ServiceRequest)
    (now : Q) (net : NodeId -> Q) (rng : Random.Rng)
  : (bool * Q) * Simulation * Random.Rng :=
  match _select_node_for_request sim request with
  | Py.Raise _ => ((false, 0.0), sim, rng)
  | Py.Ok None => ((false, 0.0), sim, rng)
  | Py.Ok (Some selected_node) =>
      if decide (selected_node ∈ failed_nodes (state sim))
      then ((false, 0.0), sim, rng)
      else
        match _simulate_network_delay sim selected_node net rng with
        | Py.Raise _ => ((false, 0.0), sim, rng)
        | Py.Ok (network_delay, rng1) =>
            let sim1 := _update_node_load sim selected_node request now in
            let sim2 := record_allocation sim1 (service_id request) selected_node in
            match Py.getitem (node_metrics (state sim2)) selected_node with
            | Py.Raise _ => ((false, 0.0), sim2, rng1)
            | Py.Ok metrics =>
                let processing_time := latency metrics / 1000.0 in
                ((true, processing_time + network_delay), sim2, rng1)
            end
        end
  end.

(** The body of the failed-node loop of [_update_system_state]: one
    failure scenario against the two node sets.  A recovered scenario
    gets its [recovery_time] stamped in place. *)
Definition apply_failure (now : Q)
    (acc : gset NodeId * gset NodeId * list FailureScenario)
    (failure : FailureScenario)
  : gset NodeId * gset NodeId * list FailureScenario :=
  let '(active, failed, seen) := acc in
  let n := node_id failure in
  if Py.Qleb (start_time failure) now
     && Py.Qleb now (start_time failure + duration failure)
  then (active ∖ {[n]}, {[n]} ∪ failed, seen ++ [failure])
  else if Py.Qltb (start_time failure + duration failure) now
  then
    if decide (n ∈ failed)
    then ({[n]} ∪ active, failed ∖ {[n]},
          seen ++ [mkFailureScenario n (failure_type failure) (start_time failure)
                     (duration failure) (severity failure) (Some now)])
    else (active, failed, seen ++ [failure])
  else (active, failed, seen ++ [failure]).

(** The failure-injection block of [_update_system_state]. *)
Definition update_failures (sim : Simulation) (now : Q) (rng : Random.Rng)
  : Simulation * Random.Rng :=
  match failure_injector sim with
  | None => (sim, rng)
  | Some inj =>
      let st := state sim in
      let '(new_failures, inj', rng') :=
        FailureInjection.inject_failures inj now st rng in
      let '(active, failed, failures) :=
        foldl (apply_failure now) (active_nodes st, failed_nodes st, [])
              (active_failures st ++ new_failures) in
      (mkSimulation (config sim)
         (mkSimulationState (current_time st) active failed (node_metrics st)
            (service_allocations st) failures (migration_history st)
            (load_balancing_metrics st))
         (Some inj') (adaptive_migration_engine sim) (current_strategy sim)
         (node_weights sim) (performance_history sim) (load_balance_history sim)
         (str_hash sim),
       rng')
  end.

(** "Apply successful migrations". *)
Definition apply_migration (st : SimulationState) (migration : MigrationEvent)
  : SimulationState :=
  if success migration then
    let m := load_balancing_metrics st in
    mkSimulationState (current_time st) (active_nodes st) (failed_nodes st)
      (node_metrics st)
      (<[mig_service_id migration := destination_node migration]>
         (service_allocations st))
      (active_failures st) (migration_history st)
      (mkLoadBalancingMetrics (cpu_distribution m) (memory_distribution m)
         (transaction_distribution m) (load_balance_index m) (total_services m)
         (migrations m + 1)%Z (last_update_timestamp m))
  else st.

(** The adaptive-migration block of [_update_system_state];
    [migration_time] and [history_time] are the two clock readings of
    [evaluate_migrations]. *)
Definition update_migrations (sim : Simulation) (migration_time history_time : Q)
    (rng : Random.Rng) : Py.result (Simulation * Random.Rng) :=
  match adaptive_migration_engine sim with
  | None => Py.Ok (sim, rng)
  | Some eng =>
      '(migs, eng', rng') ←
        AdaptiveMigration.evaluate_migrations eng (state sim) migration_time
          history_time rng;
      let st := state sim in
      let st1 :=
        mkSimulationState (current_time st) (active_nodes st) (failed_nodes st)
          (node_metrics st) (service_allocations st) (active_failures st)
          (migration_history st ++ migs) (load_balancing_metrics st) in
      Py.Ok (mkSimulation (config sim) (foldl apply_migration st1 migs)
               (failure_injector sim) (Some eng') (current_strategy sim)
               (node_weights sim) (performance_history sim)
               (load_balance_history sim) (str_hash sim),
             rng')
  end.

(** The value [_update_load_balance_index] stores, as a function of
    [cpu_loads].  [variance ** 0.5] is the real square root. *)
Definition balance_index (cpu_loads : list Q) : R :=
  if bool_decide (cpu_loads = []) || forallb (fun load => Qeq_bool load 0) cpu_loads
  then 1%R
  else
    let n := Py.of_int (Z.of_nat (length cpu_loads)) in
    let mean_load := Py.sum cpu_loads / n in
    if Qeq_bool mean_load 0 then 1%R
    else
      let variance :=
        Py.sum ((fun load => (load - mean_load) ^ 2) <$> cpu_loads) / n in
      let coefficient_of_variation := (sqrt (Q2R variance) / Q2R mean_load)%R in
      Rmax 0 (1 - Rmin 1 coefficient_of_variation).

Definition _update_load_balance_index (sim : Simulation) : Simulation :=
  let m := load_balancing_metrics (state sim) in
  let cpu_loads := cpu_distribution m <$> all_nodes in
  with_state sim (with_metrics (state sim)
    (mkLoadBalancingMetrics (cpu_distribution m) (memory_distribution m)
       (transaction_distribution m) (balance_index cpu_loads) (total_services m)
       (migrations m) (last_update_timestamp m))).

Definition _update_system_state (sim : Simulation)
    (now migration_time history_time : Q) (rng : Random.Rng)
  : Py.result (Simulation * Random.Rng) :=
  let '(sim1, rng1) := update_failures sim now rng in
  '(sim2, rng2) ← update_migrations sim1 migration_time history_time rng1;
  Py.Ok (_update_load_balance_index sim2, rng2).

Definition _record_performance_metrics (sim : Simulation) : Simulation :=
  let m := load_balancing_metrics (state sim) in
  mkSimulation (config sim) (state sim) (failure_injector sim)
    (adaptive_migration_engine sim) (current_strategy sim) (node_weights sim)
    (foldl (fun h n => <[n := h n ++ [cpu_distribution m n]]> h)
           (performance_history sim) all_nodes)
    (load_balance_history sim ++ [load_balance_index m])
    (str_hash sim).

(** What one iteration of the loop of [run_simulation] receives from
    outside: the clock readings, the generated requests (each with the
    clock reading of its admission) and the network delays. *)
Record TickInput := mkTickInput {
  tick_time : Q;
  tick_requests : list (ServiceRequest * Q);
  tick_net : NodeId -> Q;
  tick_migration_time : Q;
  tick_history_time : Q
}.

(** One iteration of the [while] loop of [run_simulation]. *)
Definition tick (sim : Simulation) (inp : TickInput) (rng : Random.Rng)
  : Py.result (Simulation * Random.Rng) :=
  let sim0 := with_state sim (with_current_time (state sim) (tick_time inp)) in
  let '(sim1, rng1) :=
    foldl (fun (acc : Simulation * Random.Rng) (item : ServiceRequest * Q) =>
             let '(_, s, r) :=
               _process_service_request (fst acc) (fst item) (snd item)
                 (tick_net inp) (snd acc) in
             (s, r))
          (sim0, rng) (tick_requests inp) in
  '(sim2, rng2) ←
    _update_system_state sim1 (tick_time inp) (tick_migration_time inp)
      (tick_history_time inp) rng1;
  Py.Ok (_record_performance_metrics sim2, rng2).

(** The simulations a run can be in at a tick boundary. *)
Inductive reachable : Simulation -> Prop :=
| reachable_init cfg now hash sim :
    init cfg now hash = Py.Ok sim -> reachable sim
| reachable_tick sim inp rng sim' rng' :
    reachable sim -> tick sim inp rng = Py.Ok (sim', rng') -> reachable sim'.

End LoadBalancerSimulation.

(** * Vocabulary of the properties *)

Module LBS := LoadBalancerSimulation.
Module FI := FailureInjection.
Module AM := AdaptiveMigration.
Module RF := RedundancyFailover.
Import Models.
Local Open Scope Q_scope.
Set Warnings "-clear-no-such-hyp".

(** ** Failures *)

(** What [_create_failure_scenario] guarantees of a trigger. *)
Definition well_formed_trigger (now : Q) (f : FailureScenario) : Prop :=
  start_time f = now ∧ 5 <= duration f ∧ duration f <= 600 ∧ 0 < severity f.

(** [c] was built by the inner loop of [_evaluate_cascading_failures]
    from the trigger [t]. *)
Definition cascaded_from (now : Q) (t c : FailureScenario) : Prop :=
  node_id c ∈ FI._get_dependent_nodes (node_id t)
  ∧ now + 5 <= start_time c ∧ start_time c <= now + 30
  ∧ duration c = duration t * 0.7
  ∧ severity c = severity t * 0.6.

(** The two node sets split the five nodes. *)
Definition node_partition (st : SimulationState) : Prop :=
  active_nodes st ∩ failed_nodes st = ∅
  ∧ active_nodes st ∪ failed_nodes st = list_to_set all_nodes.


(** ** Admission *)


(** ** Migration *)

(** A service the engine may pick at [now]: allocated to [source], out
    of cooldown, not marked as migrating. *)
Definition eligible (eng : AM.AdaptiveMigrationEngine) (state : SimulationState)
    (now : Q) (source : NodeId) (sid : string) : Prop :=
  service_allocations state !! sid = Some source
  ∧ default 0 (AM.last_migration_times eng !! sid) + 30 <= now
  ∧ (sid ∉ AM.active_migrations eng).

Definition decision_eligible (eng : AM.AdaptiveMigrationEngine)
    (state : SimulationState) (now : Q) (d : AM.MigrationDecision) : Prop :=
  eligible eng state now (AM.d_source_node d) (AM.d_service_id d).

(** What a batch of attempts [migs] made at [now] leaves in the engine. *)
Definition attempts_recorded (eng : AM.AdaptiveMigrationEngine) (now : Q)
    (migs : list MigrationEvent) (eng' : AM.AdaptiveMigrationEngine) : Prop :=
  AM.active_migrations eng'
  = AM.active_migrations eng ∪ list_to_set (mig_service_id <$> migs)
  ∧ (forall sid,
       AM.last_migration_times eng' !! sid
       = if decide (sid ∈ mig_service_id <$> migs) then Some now
         else AM.last_migration_times eng !! sid)
  ∧ AM.migration_history eng' = AM.migration_history eng ++ migs
  ∧ Forall (fun m => mig_start_time m = now) migs.

(** The engine after any sequence of [evaluate_migrations] and
    [complete_migration] calls, with the attempts made so far. *)
Inductive engine_trace : AM.AdaptiveMigrationEngine -> list MigrationEvent -> Prop :=
| trace_init : engine_trace AM.init []
| trace_evaluate eng evs state now th rng migs eng' rng' :
    engine_trace eng evs ->
    AM.evaluate_migrations eng state now th rng = Py.Ok (migs, eng', rng') ->
    engine_trace eng' (evs ++ migs)
| trace_complete eng evs sid :
    engine_trace eng evs ->
    engine_trace (AM.complete_migration eng sid) evs.

(** Every attempt made so far is covered by the cooldown table. *)
Definition cooldown_covers (eng : AM.AdaptiveMigrationEngine)
    (evs : list MigrationEvent) : Prop :=
  forall ev, ev ∈ evs ->
    ∃ t, AM.last_migration_times eng !! mig_service_id ev = Some t
         ∧ mig_start_time ev <= t.

(** Two attempts on one service are a cooldown apart. *)
Definition spaced (evs : list MigrationEvent) : Prop :=
  forall (i j : nat) a b,
    (i < j)%nat -> evs !! i = Some a -> evs !! j = Some b ->
    mig_service_id a = mig_service_id b ->
    mig_start_time a + 30 <= mig_start_time b.

(** In the tick loop the engine's set of migrating services is exactly
    the set of services ever attempted, each attempted once. *)
Definition never_released (sim : LBS.Simulation) : Prop :=
  forall eng, LBS.adaptive_migration_engine sim = Some eng ->
    AM.active_migrations eng
    = list_to_set (mig_service_id <$> migration_history (LBS.state sim))
    ∧ NoDup (mig_service_id <$> migration_history (LBS.state sim)).

(** ** Redundancy *)

(** The managers a sequence of configurations and failovers produces. *)
Inductive manager_reachable : RF.RedundancyFailoverManager -> Prop :=
| manager_init : manager_reachable RF.init
| manager_configure mgr risks now rng config mgr' rng' :
    manager_reachable mgr ->
    RF.configure_redundancy_from_risk_assessment mgr risks now rng
    = Py.Ok (config, mgr', rng') ->
    manager_reachable mgr'
| manager_failover mgr failed state mode now rng event mgr' state' rng' :
    manager_reachable mgr ->
    RF.implement_automated_failover mgr failed state mode now rng
    = (event, mgr', state', rng') ->
    manager_reachable mgr'.

Definition primary_apart (entry : string * RF.ReplicationGroup) : Prop :=
  RF.primary_node (snd entry) ∉ RF.replica_nodes (snd entry).

(** ** Load-balance index *)

(** The spec's words: the arithmetic mean of a vector of reals. *)
Definition mean (xs : list R) : R := (foldr Rplus 0 xs / INR (length xs))%R.

(** The spec's words: the coefficient of variation of the CPU loads,
    their (population) standard deviation over their mean. *)
Definition coefficient_of_variation (cpu_loads : list Q) : R :=
  let xs := Q2R <$> cpu_loads in
  let mu := mean xs in
  (sqrt (mean ((fun x => (x - mu) * (x - mu)) <$> xs)) / mu)%R.


(** * Scenarios

    Concrete inputs on which the properties below are exercised. *)

(** A source whose draws are 0 at the listed positions and maximal
    elsewhere: [random()] is 0 there and just below 1 elsewhere. *)
Definition sparse_rng (zeros : list nat) : Random.Rng :=
  Random.mkRng (fun i => if bool_decide (i ∈ zeros) then 0%Z else 9007199254740991%Z)
               (fun _ => 60) 0.

(** No draw ever falls below a probability. *)
Definition quiet_rng : Random.Rng := sparse_rng [].

Definition const_rng (z : Z) : Random.Rng :=
  Random.mkRng (fun _ => z) (fun _ => 60) 0.

Definition default_config : SimulationConfig :=
  mkSimulationConfig 60 1 true true true false default_node_baseline_metrics.

Definition fresh_state : SimulationState :=
  LBS.initial_state default_config 0.

Definition ok_or {A} (d : A) (r : Py.result A) : A :=
  match r with Py.Ok a => a | Py.Raise _ => d end.

Definition blank_simulation : LBS.Simulation :=
  LBS.mkSimulation default_config (LBS.initial_state default_config 0)
    None None RESOURCE_AWARE ∅ (fun _ => []) [] (fun _ => 0%Z).

(** [LoadBalancerSimulation(SimulationConfig(...))] at time 0. *)
Definition started : LBS.Simulation :=
  ok_or blank_simulation (LBS.init default_config 0 (fun _ => 0%Z)).

Definition no_failure : FailureScenario := mkFailureScenario EDGE1 CRASH 0 0 0 None.












Definition critical_risk : RF.RiskAssessment :=
  RF.mkRiskAssessment CORE1 0.90 BYZANTINE 0.95 {[EDGE1; EDGE2]} 0.7 ∅.

Definition configured :=
  ok_or (∅, RF.init, const_rng 0)
        (RF.configure_redundancy_from_risk_assessment RF.init [critical_risk] 0
           (const_rng 0)).

Definition configured_manager : RF.RedundancyFailoverManager := snd (fst configured).

(** The nodes of [failed] are down; CORE1 holds one of two services. *)
Definition core1_down (failed : gset NodeId) : SimulationState :=
  mkSimulationState 0 (list_to_set all_nodes ∖ failed) failed
    default_node_baseline_metrics
    (<["svc-a" := CORE1]> (<["svc-b" := EDGE1]> ∅)) [] []
    (load_balancing_metrics (LBS.initial_state default_config 0)).

Definition failover_with (failed : gset NodeId) (rng : Random.Rng) :=
  RF.implement_automated_failover configured_manager CORE1 (core1_down failed)
    RF.AUTOMATIC 50 rng.


Definition failover_succeeds := failover_with {[CORE1]} (const_rng 0).

Definition failover_draw_fails := failover_with {[CORE1]} quiet_rng.

Definition promoted_manager : RF.RedundancyFailoverManager :=
  snd (fst (fst failover_succeeds)).

(** CORE1 runs one service and is above 80% of its CPU capacity; the
    other nodes are idle. *)
Definition hot_state : SimulationState :=
  mkSimulationState 0 (list_to_set all_nodes) ∅ default_node_baseline_metrics
    (<["svc" := CORE1]> ∅) [] []
    (mkLoadBalancingMetrics (<[CORE1 := 55]> (fun _ => 0)) (fun _ => 0) (fun _ => 0%Z)
       1%R 1 0 0).

Definition evaluate_at (eng : AM.AdaptiveMigrationEngine) (now : Q) (rng : Random.Rng) :=
  ok_or ([], eng, rng) (AM.evaluate_migrations eng hot_state now now rng).

Definition first_attempt := evaluate_at AM.init 100 quiet_rng.

Definition engine_after_failure : AM.AdaptiveMigrationEngine := snd (fst first_attempt).

Definition retry_at_once := evaluate_at engine_after_failure 101 (const_rng 0).

Definition retry_after_release :=
  evaluate_at (AM.complete_migration engine_after_failure "svc") 101 (const_rng 0).

Definition retry_after_cooldown :=
  evaluate_at (AM.complete_migration engine_after_failure "svc") 131 (const_rng 0).

Definition two_attempts : list MigrationEvent :=
  fst (fst first_attempt) ++ fst (fst retry_after_cooldown).

Definition heavy_request (name : string) : ServiceRequest * Q :=
  (mkServiceRequest name 50 1 1 5 1000, 1000).

(** Four requests of 50% CPU each: three nodes end above 80% of their
    capacity with one service each, and EDGE1 stays idle. *)
Definition busy_tick : LBS.TickInput :=
  LBS.mkTickInput 1000
    [heavy_request "s1"; heavy_request "s2"; heavy_request "s3"; heavy_request "s4"]
    (fun _ => 0.01) 1000 1000.

Definition after_busy_tick :=
  ok_or (started, quiet_rng) (LBS.tick started busy_tick quiet_rng).

Definition engine_after_busy_tick : AM.AdaptiveMigrationEngine :=
  default AM.init (LBS.adaptive_migration_engine (fst after_busy_tick)).

(** * Properties *)

(** ** Numbers and the random source *)

Lemma Qltb_lt x y : Py.Qltb x y = true <-> x < y.
Proof.
  unfold Py.Qltb. rewrite negb_true_iff, <- not_true_iff_false, Qle_bool_iff.
  split; [apply Qnot_le_lt | apply Qlt_not_le].
Qed.

Lemma Qltb_ge x y : Py.Qltb x y = false <-> y <= x.
Proof.
  unfold Py.Qltb. rewrite negb_false_iff. apply Qle_bool_iff.
Qed.

Lemma Qleb_le x y : Py.Qleb x y = true <-> x <= y.
Proof. apply Qle_bool_iff. Qed.

Lemma Qleb_gt x y : Py.Qleb x y = false <-> y < x.
Proof.
  unfold Py.Qleb. rewrite <- not_true_iff_false, Qle_bool_iff.
  split; [apply Qnot_le_lt | apply Qlt_not_le].
Qed.

Lemma max_bounds a b : a <= Py.max a b ∧ b <= Py.max a b.
Proof.
  unfold Py.max. destruct (Py.Qltb a b) eqn:E.
  - apply Qltb_lt in E. split; qlra.
  - apply Qltb_ge in E. split; qlra.
Qed.

Lemma min_bounds a b : Py.min a b <= a ∧ Py.min a b <= b.
Proof.
  unfold Py.min. destruct (Py.Qltb b a) eqn:E.
  - apply Qltb_lt in E. split; qlra.
  - apply Qltb_ge in E. split; qlra.
Qed.

Lemma random_range r : 0 <= fst (Random.random r) ∧ fst (Random.random r) < 1.
Proof.
  unfold Random.random. cbn [fst].
  pose proof (Z.mod_pos_bound (Random.draws r (Random.cursor r)) Random.two53
                ltac:(reflexivity)) as [H0 H1].
  unfold Qle, Qlt. cbn [Qnum Qden]. unfold Random.two53 in *.
  change (Z.pos (Z.to_pos 9007199254740992)) with 9007199254740992%Z. lia.
Qed.

Lemma uniform_range a b r :
  a <= b -> a <= fst (Random.uniform a b r) ∧ fst (Random.uniform a b r) <= b.
Proof.
  intros Hab. unfold Random.uniform.
  pose proof (random_range r) as [H0 H1].
  destruct (Random.random r) as [u r']. cbn [fst] in *.
  split; Lqa.nra.
Qed.

Lemma randbelow_range n r :
  (0 < n)%Z -> (0 <= fst (Random.randbelow n r) < n)%Z.
Proof. intros Hn. cbn. by apply Z.mod_pos_bound. Qed.

Lemma bind_ok {A B} (m : Py.result A) (k : A -> Py.result B) b :
  Py.bind m k = Py.Ok b -> ∃ a, m = Py.Ok a ∧ k a = Py.Ok b.
Proof. destruct m; simpl; [eauto|done]. Qed.

Lemma mbind_ok {A B} (m : Py.result A) (k : A -> Py.result B) b :
  (m ≫= k) = Py.Ok b -> ∃ a, m = Py.Ok a ∧ k a = Py.Ok b.
Proof. apply bind_ok. Qed.

(** ** Reachable scenarios *)

Lemma started_reachable : LBS.reachable started.
Proof.
  apply (LBS.reachable_init default_config 0 (fun _ => 0%Z)).
  unfold started.
  destruct (LBS.init default_config 0 (fun _ => 0%Z)) as [s|e] eqn:E; [reflexivity|].
  vm_compute in E. discriminate E.
Defined.

Lemma after_busy_tick_reachable : LBS.reachable (fst after_busy_tick).
Proof.
  apply (LBS.reachable_tick started busy_tick quiet_rng _ (snd after_busy_tick)).
  - exact started_reachable.
  - unfold after_busy_tick.
    destruct (LBS.tick started busy_tick quiet_rng) as [[s r]|e] eqn:E;
      [reflexivity|].
    vm_compute in E. discriminate E.
Defined.

(** ** Cascading failures *)

Lemma create_failure_scenario_trigger n now rng :
  well_formed_trigger now (fst (FI._create_failure_scenario n now rng)).
Proof.
  unfold FI._create_failure_scenario.
  destruct (Random.expovariate _ rng) as [d rng1].
  pose proof (uniform_range (fst (FI.severity_range (FI.failure_profiles n)))
                (snd (FI.severity_range (FI.failure_profiles n))) rng1) as Hs.
  destruct (Random.uniform _ _ rng1) as [s rng2]. cbn [fst snd] in *.
  unfold well_formed_trigger. cbn [start_time duration severity].
  pose proof (max_bounds 5.0 (Py.min 600.0 d)) as [Hd1 Hd2].
  pose proof (min_bounds 600.0 d) as [Hm1 Hm2].
  split; [done|]. split; [qlra|]. split.
  - unfold Py.max in *. destruct (Py.Qltb 5.0 _); qlra.
  - destruct n; cbn in Hs; destruct Hs as [Hlo _]; try qlra.
Qed.

Lemma inject_on_node_triggers now st acc n :
  Forall (well_formed_trigger now) (fst (fst acc)) ->
  Forall (well_formed_trigger now) (fst (fst (FI.inject_on_node now st acc n))).
Proof.
  destruct acc as [[nf inj] rng]. cbn [fst]. intros Hall.
  unfold FI.inject_on_node.
  destruct (decide _); [done|].
  destruct (FI._should_inject_failure _ _ _ _ _) as [hit rng1].
  destruct hit; [|done].
  pose proof (create_failure_scenario_trigger n now rng1) as Hf.
  destruct (FI._create_failure_scenario n now rng1) as [f rng2]. cbn [fst] in *.
  apply Forall_app. split; [done|]. by apply Forall_singleton.
Qed.

Lemma initial_failures_triggers inj now st rng :
  Forall (well_formed_trigger now) (fst (fst (FI.initial_failures inj now st rng))).
Proof.
  unfold FI.initial_failures.
  assert (Hgen : forall nodes acc,
             Forall (well_formed_trigger now) (fst (fst acc)) ->
             Forall (well_formed_trigger now)
                    (fst (fst (foldl (FI.inject_on_node now st) acc nodes)))).
  { induction nodes as [|n ns IH]; intros acc Hacc; cbn [foldl]; [done|].
    apply IH. by apply inject_on_node_triggers. }
  apply Hgen. cbn. constructor.
Qed.

Lemma cascade_to_dependent_sound t initial now st deps : forall acc rng c,
  c ∈ fst (foldl (FI.cascade_to_dependent t initial now st) (acc, rng) deps) ->
  c ∈ acc ∨ (node_id c ∈ deps ∧ now + 5 <= start_time c ∧ start_time c <= now + 30
             ∧ duration c = duration t * 0.7 ∧ severity c = severity t * 0.6).
Proof.
  induction deps as [|d ds IH]; intros acc rng c; cbn [foldl fst]; [by left|].
  unfold FI.cascade_to_dependent at 2.
  destruct (decide _) as [Hok|Hno].
  - pose proof (uniform_range 5.0 30.0 rng ltac:(qlra)) as [Hlo Hhi].
    destruct (Random.uniform 5.0 30.0 rng) as [delay rng1]. cbn [fst] in *.
    intros Hc. apply IH in Hc as [Hc|Hc].
    + apply elem_of_app in Hc as [Hc|Hc]; [by left|].
      apply list_elem_of_singleton in Hc as ->. right.
      cbn [node_id start_time duration severity].
      split; [apply list_elem_of_here|]. repeat split; try done; qlra.
    + right. destruct Hc as [Hin Hrest]. split; [by apply list_elem_of_further|done].
  - intros Hc. apply IH in Hc as [Hc|Hc]; [by left|].
    right. destruct Hc as [Hin Hrest]. split; [by apply list_elem_of_further|done].
Qed.

Lemma cascade_from_sound initial now st triggers : forall acc rng c,
  c ∈ fst (foldl (FI.cascade_from initial now st) (acc, rng) triggers) ->
  c ∈ acc ∨ ∃ t, t ∈ triggers ∧ cascaded_from now t c.
Proof.
  induction triggers as [|t ts IH]; intros acc rng c; cbn [foldl fst]; [by left|].
  unfold FI.cascade_from at 2.
  destruct (Random.random rng) as [u rng1].
  destruct (Py.Qltb u _).
  - destruct (foldl (FI.cascade_to_dependent t initial now st) (acc, rng1) _)
      as [acc1 rng2] eqn:E.
    intros Hc. apply IH in Hc as [Hc|(t' & Hin & Hc)].
    + pose proof (cascade_to_dependent_sound t initial now st
                    (FI._get_dependent_nodes (node_id t)) acc rng1 c) as Hs.
      rewrite E in Hs. destruct (Hs Hc) as [?|Hs']; [by left|].
      right. exists t. split; [apply list_elem_of_here|]. exact Hs'.
    + right. exists t'. split; [by apply list_elem_of_further|done].
  - intros Hc. apply IH in Hc as [Hc|(t' & Hin & Hc)]; [by left|].
    right. exists t'. split; [by apply list_elem_of_further|done].
Qed.

Lemma dependents_table (t c : NodeId) :
  c ∈ FI._get_dependent_nodes t ->
  c ≠ t
  ∧ ((t ∈ [CORE1; CORE2] ∧ c ∈ [EDGE1; EDGE2])
     ∨ (t = CLOUD1 ∧ c ∈ [CORE1; CORE2])).
Proof.
  destruct t; cbn; intros H; try (by apply not_elem_of_nil in H);
    (split; [intros ->; set_solver|]); set_solver.
Qed.

(** C7.  Every cascading failure [c] that [inject_failures] derives from
    this tick's triggers has a trigger [t] such that: the node of [c] is
    listed as a dependent of the node of [t] in the static dependency
    table (a core trigger reaches edge nodes, the cloud trigger reaches
    core nodes, an edge trigger reaches nothing), it is not the node of
    [t], [c] starts between 5 and 30 seconds after [t], and its severity
    (0.6 times the trigger's) and duration (0.7 times the trigger's) are
    strictly lower than the trigger's. *)
Theorem cascading_failures_follow_dependency_table
    inj now st rng triggers inj' rng' c :
  FI.initial_failures inj now st rng = (triggers, inj', rng') ->
  c ∈ fst (FI._evaluate_cascading_failures triggers now st rng') ->
  ∃ t, t ∈ triggers
       ∧ node_id c ∈ FI._get_dependent_nodes (node_id t)
       ∧ node_id c ≠ node_id t
       ∧ ((node_id t ∈ [CORE1; CORE2] ∧ node_id c ∈ [EDGE1; EDGE2])
          ∨ (node_id t = CLOUD1 ∧ node_id c ∈ [CORE1; CORE2]))
       ∧ start_time t + 5 <= start_time c ∧ start_time c <= start_time t + 30
       ∧ severity c = severity t * 0.6 ∧ severity c < severity t
       ∧ duration c = duration t * 0.7 ∧ duration c < duration t.
Proof.
  intros Hinit Hc.
  pose proof (initial_failures_triggers inj now st rng) as Hwf.
  rewrite Hinit in Hwf. cbn [fst] in Hwf.
  unfold FI._evaluate_cascading_failures in Hc.
  apply cascade_from_sound in Hc as [Hc|(t & Hin & Hdep & Hlo & Hhi & Hd & Hs)].
  { by apply not_elem_of_nil in Hc. }
  rewrite Forall_forall in Hwf. destruct (Hwf t Hin) as (Hst & Hd5 & _ & Hs0).
  destruct (dependents_table _ _ Hdep) as [Hne Htab].
  exists t. rewrite Hst, Hs, Hd. repeat split; try done; qlra.
Qed.

(** C7 on a run where CORE1 fails and the failure cascades. *)
Lemma cascading_witness :
  let r := FI.initial_failures FI.init 1000 fresh_state (sparse_rng [2; 7]%nat) in
  let c := List.hd no_failure
             (fst (FI._evaluate_cascading_failures (fst (fst r)) 1000 fresh_state (snd r))) in
  ∃ t, t ∈ fst (fst r)
       ∧ node_id c ∈ FI._get_dependent_nodes (node_id t)
       ∧ node_id c ≠ node_id t
       ∧ ((node_id t ∈ [CORE1; CORE2] ∧ node_id c ∈ [EDGE1; EDGE2])
          ∨ (node_id t = CLOUD1 ∧ node_id c ∈ [CORE1; CORE2]))
       ∧ start_time t + 5 <= start_time c ∧ start_time c <= start_time t + 30
       ∧ severity c = severity t * 0.6 ∧ severity c < severity t
       ∧ duration c = duration t * 0.7 ∧ duration c < duration t.
Proof.
  intros r c.
  apply (cascading_failures_follow_dependency_table
           FI.init 1000 fresh_state (sparse_rng [2; 7]%nat)
           (fst (fst r)) (snd (fst r)) (snd r) c).
  - subst c r. by destruct (FI.initial_failures _ _ _ _) as [[? ?] ?].
  - vm_compute. constructor.
Defined.

(** ** The node sets *)

Lemma every_node_listed (n : NodeId) : n ∈ (list_to_set all_nodes : gset NodeId).
Proof. destruct n; set_solver. Qed.

Lemma fail_keeps_partition (a f U : gset NodeId) (n : NodeId) :
  a ∩ f = ∅ -> a ∪ f = U -> n ∈ U ->
  (a ∖ {[n]}) ∩ ({[n]} ∪ f) = ∅ ∧ (a ∖ {[n]}) ∪ ({[n]} ∪ f) = U.
Proof.
  intros Hd Hu Hn. split; [set_solver|].
  apply set_eq. intros x. destruct (decide (x = n)); set_solver.
Qed.

Lemma recover_keeps_partition (a f U : gset NodeId) (n : NodeId) :
  a ∩ f = ∅ -> a ∪ f = U -> n ∈ f ->
  ({[n]} ∪ a) ∩ (f ∖ {[n]}) = ∅ ∧ ({[n]} ∪ a) ∪ (f ∖ {[n]}) = U.
Proof.
  intros Hd Hu Hn. split; [set_solver|].
  apply set_eq. intros x. destruct (decide (x = n)); set_solver.
Qed.

Lemma apply_failure_partition now a f seen failure a' f' seen' :
  a ∩ f = ∅ -> a ∪ f = list_to_set all_nodes ->
  LBS.apply_failure now (a, f, seen) failure = (a', f', seen') ->
  a' ∩ f' = ∅ ∧ a' ∪ f' = list_to_set all_nodes.
Proof.
  intros Hd Hu. unfold LBS.apply_failure.
  pose proof (every_node_listed (node_id failure)) as Hn.
  destruct (_ && _).
  - intros [= <- <- <-]. by apply fail_keeps_partition.
  - destruct (Py.Qltb _ _); [destruct (decide _)|]; intros [= <- <- <-];
      try done.
    by apply recover_keeps_partition.
Qed.

Lemma apply_failures_partition now failures : forall a f seen a' f' seen',
  a ∩ f = ∅ -> a ∪ f = list_to_set all_nodes ->
  foldl (LBS.apply_failure now) (a, f, seen) failures = (a', f', seen') ->
  a' ∩ f' = ∅ ∧ a' ∪ f' = list_to_set all_nodes.
Proof.
  induction failures as [|x xs IH]; intros a f seen a' f' seen' Hd Hu; cbn [foldl].
  - intros [= <- <- <-]. done.
  - destruct (LBS.apply_failure now (a, f, seen) x) as [[a1 f1] s1] eqn:E.
    destruct (apply_failure_partition _ _ _ _ _ _ _ _ Hd Hu E) as [Hd1 Hu1].
    intros H. exact (IH _ _ _ _ _ _ Hd1 Hu1 H).
Qed.

Lemma process_request_nodes sim request now net rng out sim' rng' :
  LBS._process_service_request sim request now net rng = (out, sim', rng') ->
  active_nodes (LBS.state sim') = active_nodes (LBS.state sim)
  ∧ failed_nodes (LBS.state sim') = failed_nodes (LBS.state sim).
Proof.
  unfold LBS._process_service_request.
  repeat match goal with
         | |- context [match ?x with _ => _ end] => destruct x
         end; intros [= <- <- <-]; done.
Qed.

Lemma process_requests_nodes net requests : forall sim rng sim' rng',
  foldl (fun (acc : LBS.Simulation * Random.Rng) (item : ServiceRequest * Q) =>
           let '(_, s, r) :=
             LBS._process_service_request (fst acc) (fst item) (snd item)
               net (snd acc) in
           (s, r))
        (sim, rng) requests = (sim', rng') ->
  active_nodes (LBS.state sim') = active_nodes (LBS.state sim)
  ∧ failed_nodes (LBS.state sim') = failed_nodes (LBS.state sim).
Proof.
  induction requests as [|x xs IH]; intros sim rng sim' rng'; cbn [foldl fst snd].
  - intros [= <- <-]. done.
  - destruct (LBS._process_service_request sim (fst x) (snd x) net rng)
      as [[out s1] r1] eqn:E.
    intros H. apply IH in H as [-> ->].
    by apply process_request_nodes in E.
Qed.

Lemma update_failures_partition sim now rng sim' rng' :
  node_partition (LBS.state sim) ->
  LBS.update_failures sim now rng = (sim', rng') ->
  node_partition (LBS.state sim').
Proof.
  intros [Hd Hu]. unfold LBS.update_failures.
  destruct (LBS.failure_injector sim) as [inj|]; [|by intros [= <- <-]].
  destruct (FailureInjection.inject_failures _ _ _ _) as [[nf inj'] r1].
  destruct (foldl _ _ _) as [[a f] fs] eqn:E.
  intros [= <- <-]. simpl.
  eapply apply_failures_partition; eauto.
Qed.

Lemma apply_migrations_nodes migs : forall st,
  active_nodes (foldl LBS.apply_migration st migs) = active_nodes st
  ∧ failed_nodes (foldl LBS.apply_migration st migs) = failed_nodes st.
Proof.
  induction migs as [|m ms IH]; intros st; cbn [foldl]; [done|].
  destruct (IH (LBS.apply_migration st m)) as [-> ->].
  unfold LBS.apply_migration. by destruct (success m).
Qed.

Lemma update_migrations_nodes sim t1 t2 rng sim' rng' :
  LBS.update_migrations sim t1 t2 rng = Py.Ok (sim', rng') ->
  active_nodes (LBS.state sim') = active_nodes (LBS.state sim)
  ∧ failed_nodes (LBS.state sim') = failed_nodes (LBS.state sim).
Proof.
  unfold LBS.update_migrations.
  destruct (LBS.adaptive_migration_engine sim) as [eng|]; [|by intros [= <- <-]].
  destruct (AdaptiveMigration.evaluate_migrations _ _ _ _ _) as [[[migs eng'] r]|e];
    simpl; [|done].
  intros [= <- <-]. simpl.
  by destruct (apply_migrations_nodes migs
    (mkSimulationState (current_time (LBS.state sim)) (active_nodes (LBS.state sim))
       (failed_nodes (LBS.state sim)) (node_metrics (LBS.state sim))
       (service_allocations (LBS.state sim)) (active_failures (LBS.state sim))
       (migration_history (LBS.state sim) ++ migs)
       (load_balancing_metrics (LBS.state sim)))) as [-> ->].
Qed.

Lemma update_system_state_partition sim now t1 t2 rng sim' rng' :
  node_partition (LBS.state sim) ->
  LBS._update_system_state sim now t1 t2 rng = Py.Ok (sim', rng') ->
  node_partition (LBS.state sim').
Proof.
  intros Hp. unfold LBS._update_system_state.
  destruct (LBS.update_failures sim now rng) as [sim1 rng1] eqn:E1.
  apply update_failures_partition in E1; [|done].
  destruct (LBS.update_migrations sim1 t1 t2 rng1) as [[sim2 rng2]|e] eqn:E2;
    simpl; [|done].
  apply update_migrations_nodes in E2 as [Ha Hf].
  intros [= <- <-]. unfold node_partition in *. simpl. by rewrite Ha, Hf.
Qed.

Lemma initial_partition cfg now : node_partition (LBS.initial_state cfg now).
Proof. unfold node_partition. simpl. split; set_solver. Qed.

(** C5.  At every tick boundary, from the initial state on and after
    every iteration of the run loop, [active_nodes] and [failed_nodes]
    are disjoint and their union is the set of all five nodes. *)
Theorem nodes_partitioned_at_every_tick sim :
  LBS.reachable sim ->
  active_nodes (LBS.state sim) ∩ failed_nodes (LBS.state sim) = ∅
  ∧ active_nodes (LBS.state sim) ∪ failed_nodes (LBS.state sim)
    = list_to_set all_nodes.
Proof.
  induction 1 as [cfg now hash sim Hinit | sim inp rng sim' rng' Hr IH Ht].
  - unfold LBS.init in Hinit.
    destruct (LBS._initialize_node_weights cfg); simpl in Hinit; [|done].
    injection Hinit as <-. apply initial_partition.
  - unfold LBS.tick in Ht.
    destruct (foldl _ _ _) as [sim1 rng1] eqn:E1.
    apply process_requests_nodes in E1 as [Ha Hf]. simpl in Ha, Hf.
    destruct (LBS._update_system_state sim1 _ _ _ _) as [[sim2 rng2]|e] eqn:E2;
      simpl in Ht; [|done].
    injection Ht as <- <-.
    apply update_system_state_partition in E2; [done|].
    unfold node_partition. by rewrite Ha, Hf.
Qed.

(** C5 on the simulation after one busy tick. *)
Lemma nodes_partitioned_witness :
  active_nodes (LBS.state (fst after_busy_tick))
    ∩ failed_nodes (LBS.state (fst after_busy_tick)) = ∅
  ∧ active_nodes (LBS.state (fst after_busy_tick))
      ∪ failed_nodes (LBS.state (fst after_busy_tick))
    = list_to_set all_nodes.
Proof.
  exact (nodes_partitioned_at_every_tick (fst after_busy_tick)
           after_busy_tick_reachable).
Defined.

(** ** The window of a failure *)








(** ** Resource-aware admission *)














(** ** Sampling and replica selection *)

Lemma insert_middle_perm {A} (l : list A) j x y :
  l !! j = Some x -> l ++ [y] ≡ₚ x :: <[j := y]> l.
Proof.
  intros Hj. rewrite <- (take_drop_middle l j x Hj) at 1.
  rewrite (insert_take_drop l j y) by (by eapply lookup_lt_Some).
  rewrite <- app_assoc. cbn [app].
  rewrite <- Permutation_middle. apply perm_skip.
  apply Permutation_app_head. symmetry. apply Permutation_cons_append.
Qed.

(** One pick of [sample]: the live prefix of the pool is the picked
    element together with the new live prefix. *)
Lemma sample_pick_perm {A} (pool : list A) n j x y :
  (0 < n)%nat -> (j < n)%nat ->
  pool !! j = Some x -> pool !! (n - 1)%nat = Some y ->
  take n pool ≡ₚ x :: take (n - 1) (<[j := y]> pool).
Proof.
  intros Hn Hj Hx Hy.
  replace n with (S (n - 1)) at 1 by lia.
  rewrite (take_S_r _ _ _ Hy).
  destruct (decide (j = n - 1)%nat) as [->|Hne].
  - assert (x = y) as -> by congruence.
    rewrite list_insert_id by done.
    rewrite Permutation_app_comm. done.
  - rewrite take_insert_lt by lia.
    apply insert_middle_perm. rewrite lookup_take_lt by lia. done.
Qed.

Lemma sample_loop_spec {A} (k : nat) : forall n (pool : list A) r,
  (k <= n)%nat -> (n <= length pool)%nat -> NoDup (take n pool) ->
  length (fst (Random.sample_loop k n pool r)) = k
  ∧ NoDup (fst (Random.sample_loop k n pool r))
  ∧ (forall x, x ∈ fst (Random.sample_loop k n pool r) -> x ∈ take n pool).
Proof.
  induction k as [|k IH]; intros n pool r Hk Hn Hnd; cbn [Random.sample_loop].
  { cbn. split; [done|]. split; [constructor|]. intros x Hx.
    by apply not_elem_of_nil in Hx. }
  pose proof (randbelow_range (Z.of_nat n) r ltac:(lia)) as Hj.
  destruct (Random.randbelow (Z.of_nat n) r) as [j r1]. cbn [fst] in Hj.
  destruct (lookup_lt_is_Some_2 pool (Z.to_nat j) ltac:(lia)) as [x Hx].
  destruct (lookup_lt_is_Some_2 pool (n - 1) ltac:(lia)) as [y Hy].
  rewrite Hx, Hy.
  pose proof (sample_pick_perm pool n (Z.to_nat j) x y ltac:(lia) ltac:(lia) Hx Hy)
    as Hperm.
  assert (NoDup (x :: take (n - 1) (<[Z.to_nat j := y]> pool))) as Hnd'.
  { by rewrite <- Hperm. }
  apply NoDup_cons in Hnd' as [Hxnot Hnd1].
  destruct (IH (n - 1)%nat (<[Z.to_nat j := y]> pool) r1 ltac:(lia)
              ltac:(rewrite length_insert; lia) Hnd1) as (Hlen & Hnd2 & Hsub).
  destruct (Random.sample_loop k (n - 1) _ r1) as [rest r2]. cbn [fst] in *.
  split; [cbn; by rewrite Hlen|]. split.
  - apply NoDup_cons. split; [|done]. intros Hin. apply Hxnot. by apply Hsub.
  - intros z Hz. rewrite Hperm. apply elem_of_cons in Hz as [->|Hz].
    + apply list_elem_of_here.
    + apply list_elem_of_further. by apply Hsub.
Qed.

Lemma sample_spec {A} (population : list A) k r :
  (k <= length population)%nat -> NoDup population ->
  ∃ selected r', Random.sample population k r = Py.Ok (selected, r')
    ∧ length selected = k ∧ NoDup selected
    ∧ (forall x, x ∈ selected -> x ∈ population).
Proof.
  intros Hk Hnd. unfold Random.sample. rewrite decide_True by done.
  pose proof (sample_loop_spec k (length population) population r Hk
                ltac:(lia) ltac:(by rewrite firstn_all)) as (Hlen & Hnd' & Hsub).
  destruct (Random.sample_loop _ _ _ _) as [selected r'] eqn:E. cbn [fst] in *.
  exists selected, r'. repeat split; try done.
  intros x Hx. specialize (Hsub x Hx). by rewrite firstn_all in Hsub.
Qed.

Lemma replica_candidates_spec primary ft count :
  (count = 1 ∨ count = 2 ∨ count = 3)%nat ->
  (count <= length (RF.replica_candidates primary ft count))%nat
  ∧ NoDup (RF.replica_candidates primary ft count)
  ∧ (primary ∉ RF.replica_candidates primary ft count).
Proof.
  intros [->|[->| ->]]; destruct primary, ft;
    apply (bool_decide_unpack _); vm_compute; exact I.
Qed.

Lemma select_replica_nodes_spec primary ft count rng :
  (count = 1 ∨ count = 2 ∨ count = 3)%nat ->
  ∃ replicas rng',
    RF._select_replica_nodes primary ft count rng = Py.Ok (replicas, rng')
    ∧ size replicas = count ∧ (primary ∉ replicas).
Proof.
  intros Hcount. unfold RF._select_replica_nodes.
  destruct (replica_candidates_spec primary ft count Hcount) as (Hlen & Hnd & Hp).
  rewrite Nat.min_l by done.
  destruct (sample_spec (RF.replica_candidates primary ft count) count rng Hlen Hnd)
    as (selected & rng' & -> & Hsl & Hsnd & Hsub).
  exists (list_to_set selected), rng'. cbn. split; [done|]. split.
  - by rewrite size_list_to_set.
  - rewrite elem_of_list_to_set. intros Hin. apply Hp. by apply Hsub.
Qed.

(** The group [_create_replication_group_for_node] builds. *)
Lemma create_replication_group_spec mgr risk strat now rng :
  ∃ mgr' rng' g,
    RF._create_replication_group_for_node mgr risk strat now rng = Py.Ok (mgr', rng')
    ∧ RF.replication_groups mgr'
      = Py.setitem ("replication_group_" +:+ node_value (RF.ra_node_id risk)) g
          (RF.replication_groups mgr)
    ∧ RF.failover_history mgr' = RF.failover_history mgr
    ∧ RF.primary_node g = RF.ra_node_id risk
    ∧ RF.strategy g = strat
    ∧ (RF.primary_node g ∉ RF.replica_nodes g)
    ∧ Z.of_nat (size (RF.replica_nodes g)) = RF.replication_factor g
    ∧ (0.85 <= RF.risk_score risk -> RF.replication_factor g = 3%Z)
    ∧ (0.7 <= RF.risk_score risk -> (2 <= RF.replication_factor g)%Z).
Proof.
  unfold RF._create_replication_group_for_node.
  set (factor := if Py.Qleb RF.critical_risk_threshold (RF.risk_score risk)
                 then 3%nat
                 else if Py.Qleb RF.high_risk_threshold (RF.risk_score risk)
                      then 2%nat else 1%nat).
  assert (factor = 1 ∨ factor = 2 ∨ factor = 3)%nat as Hf.
  { subst factor. repeat case_match; auto. }
  destruct (select_replica_nodes_spec (RF.ra_node_id risk) (RF.ra_failure_type risk)
              factor rng Hf) as (replicas & rng' & -> & Hsize & Hp).
  cbn. eexists _, _, _. split; [reflexivity|]. cbn.
  split; [reflexivity|]. cbn.
  split; [done|]. split; [done|]. split; [done|].
  split; [done|]. split; [by rewrite Hsize|]. split.
  - intros H. apply Qleb_le in H. subst factor.
    unfold RF.critical_risk_threshold. by rewrite H.
  - intros H. apply Qleb_le in H. subst factor.
    unfold RF.high_risk_threshold. rewrite H. by case_match.
Qed.

(** ** Strategy selection *)

(** C9.  The redundancy strategy selected for a risk assessment follows
    the decision table: risk >= 0.85 with a Byzantine failure type gives
    N-way replication and with any other type active-active; risk in
    [0.70, 0.85) gives active-active with more than two dependent nodes
    and active-passive otherwise; risk in [0.50, 0.70) gives
    active-passive; a lower risk gives geographic redundancy.  That
    strategy is what [configure_redundancy_from_risk_assessment] returns
    for the record's node. *)
Theorem redundancy_strategy_decision_table (risk : RF.RiskAssessment) :
  (0.85 <= RF.risk_score risk -> RF.ra_failure_type risk = BYZANTINE ->
   RF._select_redundancy_strategy risk = RF.N_WAY_REPLICATION)
  ∧ (0.85 <= RF.risk_score risk -> RF.ra_failure_type risk ≠ BYZANTINE ->
     RF._select_redundancy_strategy risk = RF.ACTIVE_ACTIVE)
  ∧ (0.7 <= RF.risk_score risk -> RF.risk_score risk < 0.85 ->
     (2 < size (RF.dependent_nodes risk))%nat ->
     RF._select_redundancy_strategy risk = RF.ACTIVE_ACTIVE)
  ∧ (0.7 <= RF.risk_score risk -> RF.risk_score risk < 0.85 ->
     (size (RF.dependent_nodes risk) <= 2)%nat ->
     RF._select_redundancy_strategy risk = RF.ACTIVE_PASSIVE)
  ∧ (0.5 <= RF.risk_score risk -> RF.risk_score risk < 0.7 ->
     RF._select_redundancy_strategy risk = RF.ACTIVE_PASSIVE)
  ∧ (RF.risk_score risk < 0.5 ->
     RF._select_redundancy_strategy risk = RF.GEOGRAPHIC_REDUNDANCY)
  ∧ (forall mgr now rng, ∃ mgr' rng',
       RF.configure_redundancy_from_risk_assessment mgr [risk] now rng
       = Py.Ok ({[RF.ra_node_id risk := RF._select_redundancy_strategy risk]},
                mgr', rng')).
Proof.
  assert (Hlast : forall mgr now rng, ∃ mgr' rng',
            RF.configure_redundancy_from_risk_assessment mgr [risk] now rng
            = Py.Ok ({[RF.ra_node_id risk := RF._select_redundancy_strategy risk]},
                     mgr', rng')).
  { intros mgr now rng.
    unfold RF.configure_redundancy_from_risk_assessment, RF.configure_one.
    cbn [foldl]. cbn. rewrite insert_empty.
    destruct (Py.Qleb RF.high_risk_threshold (RF.risk_score risk)); [|eauto].
    destruct (create_replication_group_spec mgr risk
                (RF._select_redundancy_strategy risk) now rng)
      as (mgr' & rng' & g & -> & _).
    cbn. eauto. }
  unfold RF._select_redundancy_strategy, RF.critical_risk_threshold,
    RF.high_risk_threshold in *.
  destruct (Py.Qleb 0.85 (RF.risk_score risk)) eqn:E1;
    [apply Qleb_le in E1 | apply Qleb_gt in E1];
  (destruct (Py.Qleb 0.7 (RF.risk_score risk)) eqn:E2;
    [apply Qleb_le in E2 | apply Qleb_gt in E2]);
  (destruct (Py.Qleb 0.5 (RF.risk_score risk)) eqn:E3;
    [apply Qleb_le in E3 | apply Qleb_gt in E3]);
  (split_and!; [..|exact Hlast]); intros; try (exfalso; qlra); try done;
    repeat case_decide; try done; try lia.
Qed.

(** C9 on a record of risk 0.90 and Byzantine failure type: N-way
    replication, selected and returned by the configuration. *)
Lemma redundancy_strategy_decision_table_witness :
  RF._select_redundancy_strategy critical_risk = RF.N_WAY_REPLICATION
  ∧ fst (fst configured) = {[CORE1 := RF.N_WAY_REPLICATION]}.
Proof.
  destruct (redundancy_strategy_decision_table critical_risk)
    as (Hbyz & _ & _ & _ & _ & _ & Hconf).
  assert (Hsel : RF._select_redundancy_strategy critical_risk
                 = RF.N_WAY_REPLICATION).
  { apply Hbyz; [vm_compute; discriminate | reflexivity]. }
  split; [exact Hsel|].
  destruct (Hconf RF.init 0 (const_rng 0)) as (mgr' & rng' & E).
  unfold configured. rewrite E, Hsel. reflexivity.
Defined.

(** ** Replication groups *)

Lemma setitem_Forall {V} (P : string * V -> Prop) k v (d : list (string * V)) :
  P (k, v) -> Forall P d -> Forall P (Py.setitem k v d).
Proof.
  intros Hkv. induction 1 as [|[k' v'] rest Hx Hrest IH]; cbn.
  - by apply Forall_singleton.
  - destruct (decide (k = k')); constructor; done.
Qed.

Lemma configure_one_ok now acc risk r :
  RF.configure_one now acc risk = Py.Ok r -> ∃ a, acc = Py.Ok a.
Proof.
  unfold RF.configure_one. intros H. apply mbind_ok in H as (a & -> & _). eauto.
Qed.

Lemma configure_fold_ok now risks : forall acc r,
  foldl (RF.configure_one now) acc risks = Py.Ok r -> ∃ a, acc = Py.Ok a.
Proof.
  induction risks as [|x xs IH]; intros acc r; cbn [foldl]; [eauto|].
  intros H. apply IH in H as [a H]. by apply configure_one_ok in H.
Qed.

Lemma configure_one_apart now config mgr rng risk config' mgr' rng' :
  Forall primary_apart (RF.replication_groups mgr) ->
  RF.configure_one now (Py.Ok (config, mgr, rng)) risk = Py.Ok (config', mgr', rng') ->
  Forall primary_apart (RF.replication_groups mgr').
Proof.
  intros Hall. unfold RF.configure_one. cbn.
  destruct (Py.Qleb _ _); [|by intros [= _ <- _]].
  destruct (create_replication_group_spec mgr risk
              (RF._select_redundancy_strategy risk) now rng)
    as (m1 & r1 & g & -> & Hg & _ & _ & _ & Hap & _).
  cbn. intros [= _ <- _]. rewrite Hg. by apply setitem_Forall.
Qed.

Lemma configure_apart now risks : forall config mgr rng config' mgr' rng',
  Forall primary_apart (RF.replication_groups mgr) ->
  foldl (RF.configure_one now) (Py.Ok (config, mgr, rng)) risks
  = Py.Ok (config', mgr', rng') ->
  Forall primary_apart (RF.replication_groups mgr').
Proof.
  induction risks as [|x xs IH]; intros config mgr rng config' mgr' rng' Hall;
    cbn [foldl].
  - by intros [= _ <- _].
  - intros H. destruct (configure_fold_ok _ _ _ _ H) as [[[c1 m1] r1] Hstep].
    rewrite Hstep in H. eapply IH; [|exact H].
    by eapply configure_one_apart.
Qed.

Lemma select_failover_target_spec failed group state target :
  RF._select_failover_target failed group state = Some target ->
  target ∈ RF.replica_nodes group ∧ (target ∉ failed_nodes state).
Proof.
  unfold RF._select_failover_target.
  set (available := List.filter _ _).
  assert (forall n, n ∈ available ->
            n ∈ RF.replica_nodes group ∧ (n ∉ failed_nodes state)) as Hav.
  { intros n Hn. subst available. apply list_elem_of_In, filter_In in Hn as [Hn Hb].
    apply list_elem_of_In, elem_of_elements in Hn.
    by apply bool_decide_eq_true in Hb. }
  assert (forall l (acc : option Q * option NodeId),
            snd (foldl (fun (acc : option Q * option NodeId) replica =>
                          let score := RF._calculate_failover_target_score replica state in
                          match fst acc with
                          | Some b => if Py.Qltb b score
                                      then (Some score, Some replica) else acc
                          | None => (Some score, Some replica)
                          end) acc l) = Some target ->
            snd acc = Some target ∨ target ∈ l) as Hfold.
  { induction l as [|x xs IH]; intros acc; cbn [foldl]; [by left|].
    intros H. apply IH in H as [H|H]; [|right; by apply list_elem_of_further].
    destruct (fst acc) as [b|]; [destruct (Py.Qltb b _)|]; cbn [snd] in H;
      try (injection H as ->; right; apply list_elem_of_here).
    by left. }
  intros H. apply Hfold in H as [H|H]; [done|]. by apply Hav.
Qed.

Lemma update_found_group_Forall (P : string * RF.ReplicationGroup -> Prop) n f groups g :
  RF._find_replication_group_for_node (RF.mkManager groups []) n = Some g ->
  (forall k, P (k, g) -> P (k, f g)) ->
  Forall P groups -> Forall P (RF.update_found_group n f groups).
Proof.
  unfold RF._find_replication_group_for_node. cbn.
  intros Hfind Hf. induction 1 as [|[k g0] rest Hx Hrest IH]; cbn in *; [done|].
  destruct (bool_decide _).
  - cbn in Hfind. injection Hfind as ->. constructor; [by apply Hf|done].
  - constructor; [done|]. by apply IH.
Qed.

Lemma promotion_keeps_primary_apart k g failed target :
  primary_apart (k, g) -> target ∈ RF.replica_nodes g ->
  primary_apart (k, RF._update_replication_group_after_failover g failed target).
Proof.
  unfold primary_apart, RF._update_replication_group_after_failover. cbn.
  intros Hap Ht. destruct (decide (failed = RF.primary_node g)) as [->|]; [|done].
  cbn. set_solver.
Qed.

Lemma failover_apart mgr failed state mode now rng event mgr' state' rng' :
  Forall primary_apart (RF.replication_groups mgr) ->
  RF.implement_automated_failover mgr failed state mode now rng
  = (event, mgr', state', rng') ->
  Forall primary_apart (RF.replication_groups mgr').
Proof.
  intros Hall. unfold RF.implement_automated_failover.
  destruct (RF._find_replication_group_for_node mgr failed) as [g|] eqn:Ef;
    [|by intros [= _ <- _ _]].
  destruct (RF._select_failover_target failed g state) as [target|] eqn:Et;
    [|by intros [= _ <- _ _]].
  apply (select_failover_target_spec failed) in Et as [Hin _].
  destruct (RF._execute_failover _ _ _ _ _) as [[ok downtime] rng1].
  destruct (RF._migrate_services_during_failover _ _ _) as [migrated state1].
  intros [= _ <- _ _]. cbn. destruct ok; [|done].
  eapply update_found_group_Forall; [|intros k Hk; by apply promotion_keeps_primary_apart|done].
  by destruct mgr.
Qed.

(** C8.  In every replication group of a manager reached by
    configurations and failovers, so at creation and after every
    promotion, the replica set does not contain the group's primary.
    A group created for a node with risk score >= 0.85 has a replication
    factor of at least 2 and at least 2 replica nodes. *)
Theorem replica_sets_exclude_primary :
  (forall mgr, manager_reachable mgr ->
     forall k g, (k, g) ∈ RF.replication_groups mgr ->
       RF.primary_node g ∉ RF.replica_nodes g)
  ∧ (forall mgr risk strat now rng,
       ∃ mgr' rng' g,
         RF._create_replication_group_for_node mgr risk strat now rng
         = Py.Ok (mgr', rng')
         ∧ RF.replication_groups mgr'
           = Py.setitem ("replication_group_" +:+ node_value (RF.ra_node_id risk)) g
               (RF.replication_groups mgr)
         ∧ RF.primary_node g = RF.ra_node_id risk
         ∧ (RF.primary_node g ∉ RF.replica_nodes g)
         ∧ (0.85 <= RF.risk_score risk ->
            (2 <= RF.replication_factor g)%Z
            ∧ (2 <= size (RF.replica_nodes g))%nat)).
Proof.
  split.
  - intros mgr Hreach.
    assert (Forall primary_apart (RF.replication_groups mgr)) as Hall.
    { induction Hreach as [|mgr risks now rng config mgr' rng' _ IH Hc
                            |mgr failed state mode now rng event mgr' state' rng' _ IH Hf].
      - constructor.
      - by eapply configure_apart.
      - by eapply failover_apart. }
    intros k g Hin. rewrite Forall_forall in Hall. exact (Hall (k, g) Hin).
  - intros mgr risk strat now rng.
    destruct (create_replication_group_spec mgr risk strat now rng)
      as (mgr' & rng' & g & Hc & Hg & _ & Hp & _ & Hap & Hsize & Hcrit & _).
    exists mgr', rng', g. repeat split; try done; specialize (Hcrit H); lia.
Qed.

Lemma configured_manager_reachable : manager_reachable configured_manager.
Proof.
  eapply (manager_configure RF.init [critical_risk] 0 (const_rng 0)
            (fst (fst configured)) configured_manager (snd configured)).
  - constructor.
  - unfold configured_manager, configured.
    destruct (RF.configure_redundancy_from_risk_assessment _ _ _ _)
      as [[[c m] r]|e] eqn:E; [reflexivity|].
    vm_compute in E. discriminate E.
Defined.

Lemma promoted_manager_reachable : manager_reachable promoted_manager.
Proof.
  eapply (manager_failover configured_manager CORE1 (core1_down {[CORE1]})
            RF.AUTOMATIC 50 (const_rng 0)
            (fst (fst (fst failover_succeeds))) promoted_manager
            (snd (fst failover_succeeds)) (snd failover_succeeds)).
  - exact configured_manager_reachable.
  - unfold promoted_manager, failover_succeeds, failover_with.
    by destruct (RF.implement_automated_failover _ _ _ _ _ _) as [[[? ?] ?] ?].
Defined.

Lemma promotion_example :
  (fun kg => (RF.primary_node (snd kg), elements (RF.replica_nodes (snd kg))))
    <$> RF.replication_groups promoted_manager
  = [(CORE2, [CLOUD1; CORE1; EDGE1])].
Proof. vm_compute. reflexivity. Qed.

(** C8 on the manager after CORE2 was promoted in place of CORE1. *)
Lemma replica_sets_exclude_primary_witness :
  Forall (fun kg => RF.primary_node (snd kg) ∉ RF.replica_nodes (snd kg))
         (RF.replication_groups promoted_manager).
Proof.
  apply Forall_forall. intros [k g] Hin.
  destruct replica_sets_exclude_primary as [Hreach _].
  exact (Hreach promoted_manager promoted_manager_reachable k g Hin).
Defined.

(** ** Failover *)





(** When the success draw fails, the services of the failed node are
    moved to the failover node all the same:
    [_migrate_services_during_failover] is called before the test of
    [success]. *)
Lemma failed_draw_still_moves_services :
  (RF.fo_success <$> fst (fst (fst failover_draw_fails))) = Some false
  ∧ service_allocations (core1_down {[CORE1]}) !! "svc-a" = Some CORE1
  ∧ service_allocations (snd (fst failover_draw_fails)) !! "svc-a" = Some CORE2.
Proof. repeat split; vm_compute; reflexivity. Qed.


(** ** The load-balance index *)









Section BalanceIndex.
Local Open Scope R_scope.

















End BalanceIndex.

(** ** Migration decisions and attempts *)

Lemma find_migratable_services_spec eng source state now sid :
  sid ∈ AM._find_migratable_services eng source state now ->
  eligible eng state now source sid.
Proof.
  unfold AM._find_migratable_services. intros H.
  apply list_elem_of_fmap in H as ([k n] & -> & Hin).
  apply list_elem_of_In, filter_In in Hin as [Hin Hb].
  apply list_elem_of_In, elem_of_map_to_list in Hin.
  unfold AM.is_migratable in Hb.
  destruct (decide (n ≠ source)) as [|Heq]; [done|].
  apply dec_stable in Heq as ->.
  destruct (Py.Qltb _ _) eqn:Ecool; [done|].
  destruct (decide (k ∈ AM.active_migrations eng)); [done|].
  apply Qltb_ge in Ecool. unfold AM.migration_cooldown in Ecool.
  unfold eligible. cbn. split; [done|]. split; [qlra|done].
Qed.

Lemma filter_NoDup_fst {A B} (f : A * B -> bool) (l : list (A * B)) :
  NoDup (fst <$> l) -> NoDup (fst <$> List.filter f l).
Proof.
  induction l as [|x xs IH]; cbn; [done|].
  intros Hnd. apply NoDup_cons in Hnd as [Hx Hnd].
  destruct (f x); cbn; [|by apply IH].
  apply NoDup_cons. split; [|by apply IH].
  intros Hin. apply Hx. apply list_elem_of_fmap in Hin as (y & Hy & Hin).
  apply list_elem_of_fmap. exists y. split; [done|].
  by apply list_elem_of_In, filter_In in Hin as [Hin%list_elem_of_In _].
Qed.

Lemma find_migratable_services_NoDup eng source state now :
  NoDup (AM._find_migratable_services eng source state now).
Proof.
  unfold AM._find_migratable_services. apply filter_NoDup_fst.
  apply NoDup_fst_map_to_list.
Qed.

Lemma decide_service_ok eng state source under acc sid r :
  AM.decide_service eng state source under acc sid = Py.Ok r -> ∃ a, acc = Py.Ok a.
Proof.
  unfold AM.decide_service. intros H. apply mbind_ok in H as (a & -> & _). eauto.
Qed.

Lemma decide_services_ok eng state source under sids : forall acc r,
  foldl (AM.decide_service eng state source under) acc sids = Py.Ok r ->
  ∃ a, acc = Py.Ok a.
Proof.
  induction sids as [|x xs IH]; intros acc r; cbn [foldl]; [eauto|].
  intros H. apply IH in H as [a H]. by apply decide_service_ok in H.
Qed.

(** The decisions one source contributes: about services of [sids], in
    order, each with that source. *)
Lemma decide_services_spec eng state source under sids : forall ds r,
  foldl (AM.decide_service eng state source under) (Py.Ok ds) sids = Py.Ok r ->
  ∃ new, r = ds ++ new
    ∧ (AM.d_service_id <$> new) `sublist_of` sids
    ∧ Forall (fun d => AM.d_source_node d = source) new.
Proof.
  induction sids as [|x xs IH]; intros ds r; cbn [foldl].
  - intros [= <-]. exists []. rewrite app_nil_r. done.
  - intros H. destruct (decide_services_ok _ _ _ _ _ _ _ H) as [ds1 Hstep].
    rewrite Hstep in H. apply IH in H as (new & -> & Hsub & Hsrc).
    unfold AM.decide_service in Hstep. cbn in Hstep.
    destruct (AM._find_best_destination x source under state) as [[best|]|];
      cbn in Hstep; try done; injection Hstep as <-.
    + exists (AM.mkMigrationDecision x source best
                ("Load balancing: " +:+ node_value source +:+ " overloaded")
                (AM._calculate_migration_priority eng x source best state)
                (AM._estimate_migration_benefit x source best state) :: new).
      rewrite <- app_assoc. split; [done|]. split.
      * cbn. by apply sublist_skip.
      * constructor; [done|done].
    + exists new. split; [done|]. split; [by apply sublist_cons|done].
Qed.

Lemma generate_decisions_fold eng state under now sources : forall ds r,
  NoDup sources ->
  Forall (decision_eligible eng state now) ds ->
  Forall (fun d => AM.d_source_node d ∉ sources) ds ->
  NoDup (AM.d_service_id <$> ds) ->
  foldl (fun acc source =>
           foldl (AM.decide_service eng state source under) acc
                 (AM._find_migratable_services eng source state now))
        (Py.Ok ds) sources = Py.Ok r ->
  Forall (decision_eligible eng state now) r ∧ NoDup (AM.d_service_id <$> r).
Proof.
  induction sources as [|s ss IH]; intros ds r Hnd Hel Hsrc Hids; cbn [foldl].
  - by intros [= <-].
  - intros H. apply NoDup_cons in Hnd as [Hs Hss].
    assert (∃ a, foldl (AM.decide_service eng state s under) (Py.Ok ds)
                   (AM._find_migratable_services eng s state now) = Py.Ok a)
      as [ds1 Hstep].
    { clear -H. revert H. generalize (foldl (AM.decide_service eng state s under)
        (Py.Ok ds) (AM._find_migratable_services eng s state now)).
      induction ss as [|x xs IHx]; intros acc; cbn [foldl]; [eauto|].
      intros H. apply IHx in H as [a H]. by apply decide_services_ok in H. }
    rewrite Hstep in H.
    apply decide_services_spec in Hstep as (new & -> & Hsub & Hnew).
    assert (Forall (decision_eligible eng state now) new) as Hnewel.
    { rewrite Forall_forall in Hnew |- *. intros d Hd.
      unfold decision_eligible. rewrite (Hnew d Hd).
      apply find_migratable_services_spec. eapply elem_of_sublist; [|exact Hsub].
      apply list_elem_of_fmap. eauto. }
    eapply IH; [done| | |  |exact H].
    + by apply Forall_app.
    + apply Forall_app. split.
      * eapply Forall_impl; [exact Hsrc|]. cbn. intros d Hd Hin. apply Hd.
        by apply list_elem_of_further.
      * rewrite Forall_forall in Hnew |- *. intros d Hd. by rewrite (Hnew d Hd).
    + rewrite fmap_app. apply NoDup_app. split; [done|]. split.
      * intros sid Hold Hnew'.
        apply list_elem_of_fmap in Hold as (d & -> & Hd).
        apply list_elem_of_fmap in Hnew' as (d' & Heq & Hd').
        rewrite Forall_forall in Hel, Hsrc, Hnewel, Hnew.
        destruct (Hel d Hd) as [Ha _]. destruct (Hnewel d' Hd') as [Ha' _].
        rewrite Heq, Ha' in Ha. injection Ha as Ha.
        apply (Hsrc d Hd). rewrite <- Ha, (Hnew d' Hd'). apply list_elem_of_here.
      * eapply sublist_NoDup; [|exact Hsub].
        apply find_migratable_services_NoDup.
Qed.

Lemma identify_overloaded_NoDup state : NoDup (AM._identify_overloaded_nodes state).
Proof.
  unfold AM._identify_overloaded_nodes.
  apply NoDup_ListNoDup, List.NoDup_filter, NoDup_ListNoDup, NoDup_elements.
Qed.

Lemma generate_decisions_spec eng state overloaded under now ds :
  NoDup overloaded ->
  AM._generate_migration_decisions eng state overloaded under now = Py.Ok ds ->
  Forall (decision_eligible eng state now) ds ∧ NoDup (AM.d_service_id <$> ds).
Proof.
  intros Hnd. apply generate_decisions_fold; try done; constructor.
Qed.

Lemma insert_by_priority_perm d l : AM.insert_by_priority d l ≡ₚ d :: l.
Proof.
  induction l as [|x xs IH]; cbn; [done|].
  destruct (Py.Qltb _ _); [done|]. rewrite IH. apply perm_swap.
Qed.

Lemma sorted_by_priority_perm l : AM.sorted_by_priority l ≡ₚ l.
Proof.
  unfold AM.sorted_by_priority.
  assert (forall acc, foldl (fun acc d => AM.insert_by_priority d acc) acc l
                      ≡ₚ acc ++ l) as H.
  { induction l as [|x xs IH]; intros acc; cbn [foldl].
    - by rewrite app_nil_r.
    - rewrite IH, insert_by_priority_perm. cbn. apply Permutation_middle. }
  apply (H []).
Qed.

Lemma attempts_recorded_nil eng now : attempts_recorded eng now [] eng.
Proof.
  unfold attempts_recorded. cbn. split; [set_solver|]. split.
  - intros sid. by rewrite decide_False by apply not_elem_of_nil.
  - split; [by rewrite app_nil_r|constructor].
Qed.

Lemma execute_decision_recorded eng d now rng m eng1 rng1 :
  AM._execute_migration_decision eng d now rng = (m, eng1, rng1) ->
  mig_service_id m = AM.d_service_id d
  ∧ attempts_recorded eng now [m]
      (AM.with_active eng1 ({[AM.d_service_id d]} ∪ AM.active_migrations eng1)).
Proof.
  unfold AM._execute_migration_decision.
  destruct (Random.random rng) as [u r1].
  destruct (Random.uniform 1.0 10.0 r1) as [dur r2].
  intros [= <- <- <-]. split; [done|].
  unfold attempts_recorded. cbn [mig_service_id fmap list_fmap].
  split; [|split; [|split]].
  - destruct (Py.Qltb u _); cbn; [set_solver|].
    apply set_eq. intros x. destruct (decide (x = AM.d_service_id d)); set_solver.
  - intros sid.
    assert (AM.last_migration_times
              (AM.with_active
                 (if Py.Qltb u AM.migration_success_rate
                  then AM.mkEngine
                         (<[AM.d_service_id d:=now]> (AM.last_migration_times eng))
                         (AM.active_migrations eng)
                         (AM.migration_history eng ++
                            [mkMigrationEvent (AM.d_service_id d) (AM.d_source_node d)
                               (AM.d_destination_node d) now
                               (if Py.Qltb u AM.migration_success_rate
                                then Some (now + dur) else None)
                               (Py.Qltb u AM.migration_success_rate) (AM.d_reason d)])
                         (AM.node_performance_history eng)
                         (AM.load_imbalance_history eng)
                  else _) _)
            = <[AM.d_service_id d:=now]> (AM.last_migration_times eng)) as ->.
    { by destruct (Py.Qltb u _). }
    destruct (decide (sid ∈ [AM.d_service_id d])) as [Hin|Hnot].
    + apply list_elem_of_singleton in Hin. subst sid. by rewrite lookup_insert_eq.
    + rewrite lookup_insert_ne; [done|]. intros Heq. subst sid.
      apply Hnot, list_elem_of_here.
  - by destruct (Py.Qltb u _).
  - by constructor.
Qed.

Lemma attempts_recorded_cons eng now m eng1 rest eng2 :
  attempts_recorded eng now [m] eng1 ->
  attempts_recorded eng1 now rest eng2 ->
  attempts_recorded eng now (m :: rest) eng2.
Proof.
  intros (Ha1 & Hl1 & Hh1 & Hs1) (Ha2 & Hl2 & Hh2 & Hs2).
  unfold attempts_recorded. split; [|split; [|split]].
  - rewrite Ha2, Ha1. cbn. set_solver.
  - intros sid. rewrite Hl2, Hl1. cbn.
    destruct (decide (sid ∈ mig_service_id <$> rest)) as [Hr|Hr].
    + rewrite decide_True; [done|]. by apply list_elem_of_further.
    + destruct (decide (sid ∈ [mig_service_id m])) as [Hm|Hm].
      * rewrite decide_True; [done|].
        apply list_elem_of_singleton in Hm. subst sid. apply list_elem_of_here.
      * rewrite decide_False; [done|]. intros Hin.
        apply elem_of_cons in Hin as [Heq|Hin]; [|done].
        subst sid. apply Hm, list_elem_of_here.
  - rewrite Hh2, Hh1. by rewrite <- app_assoc.
  - apply Forall_cons. split; [|done]. exact (Forall_inv Hs1).
Qed.

Lemma execute_steps_spec now ds : forall migs eng rng migs' eng' rng',
  foldl (AM.execute_step now) (migs, eng, rng) ds = (migs', eng', rng') ->
  ∃ new, migs' = migs ++ new
    ∧ (mig_service_id <$> new) `sublist_of` (AM.d_service_id <$> ds)
    ∧ attempts_recorded eng now new eng'
    ∧ (length migs' <= Nat.max (length migs) AM.max_concurrent_migrations)%nat.
Proof.
  induction ds as [|d ds IH]; intros migs eng rng migs' eng' rng'; cbn [foldl].
  - intros [= <- <- <-]. exists []. rewrite app_nil_r.
    split; [done|]. split; [done|]. split; [apply attempts_recorded_nil|lia].
  - unfold AM.execute_step at 2.
    destruct (decide (AM.max_concurrent_migrations <= length migs)%nat) as [Hcap|Hcap].
    + intros H. apply IH in H as (new & -> & Hsub & Hrec & Hlen).
      exists new. split; [done|]. split; [by apply sublist_cons|done].
    + destruct (AM._execute_migration_decision eng d now rng) as [[m eng1] rng1] eqn:Ex.
      apply execute_decision_recorded in Ex as [Hsid Hrec1].
      intros H. apply IH in H as (new & -> & Hsub & Hrec & Hlen).
      exists (m :: new). rewrite <- app_assoc. split; [done|]. split; [|split].
      * cbn. rewrite Hsid. by apply sublist_skip.
      * by eapply attempts_recorded_cons.
      * rewrite length_app in Hlen. cbn in Hlen.
        rewrite !length_app in *. cbn in *. unfold AM.max_concurrent_migrations in *.
        lia.
Qed.

Lemma evaluate_migrations_spec eng state now th rng migs eng' rng' :
  AM.evaluate_migrations eng state now th rng = Py.Ok (migs, eng', rng') ->
  attempts_recorded eng now migs eng'
  ∧ NoDup (mig_service_id <$> migs)
  ∧ Forall (fun m => ∃ source, eligible eng state now source (mig_service_id m)) migs
  ∧ (length migs <= AM.max_concurrent_migrations)%nat.
Proof.
  unfold AM.evaluate_migrations.
  destruct (decide (AM.max_concurrent_migrations <= size (AM.active_migrations eng))%nat).
  { intros [= <- <- <-]. split; [apply attempts_recorded_nil|].
    split; [constructor|]. split; [constructor|]. cbn. lia. }
  set (eng1 := AM._update_performance_history eng state th).
  assert (forall ms e2, attempts_recorded eng1 now ms e2 ->
                        attempts_recorded eng now ms e2) as Hsame by done.
  destruct (AM._identify_overloaded_nodes state) as [|o os] eqn:Eo.
  { intros [= <- <- <-]. split; [apply Hsame, attempts_recorded_nil|].
    split; [constructor|]. split; [constructor|]. cbn. lia. }
  destruct (AM._identify_underloaded_nodes state) as [|u us] eqn:Eu.
  { intros [= <- <- <-]. split; [apply Hsame, attempts_recorded_nil|].
    split; [constructor|]. split; [constructor|]. cbn. lia. }
  intros H. apply mbind_ok in H as (ds & Hgen & H).
  apply generate_decisions_spec in Hgen as [Hel Hnd].
  2:{ rewrite <- Eo. apply identify_overloaded_NoDup. }
  injection H as H.
  apply execute_steps_spec in H as (new & -> & Hsub & Hrec & Hlen).
  cbn [app] in *.
  assert ((mig_service_id <$> new) `sublist_of`
            (AM.d_service_id <$> AM.sorted_by_priority ds)) as Hsub' by done.
  split; [by apply Hsame|]. split; [|split].
  - eapply sublist_NoDup; [|exact Hsub].
    by rewrite (sorted_by_priority_perm ds).
  - rewrite Forall_forall. intros m Hm.
    assert (mig_service_id m ∈ AM.d_service_id <$> AM.sorted_by_priority ds) as Hin.
    { eapply elem_of_sublist; [|exact Hsub]. apply list_elem_of_fmap. eauto. }
    apply list_elem_of_fmap in Hin as (d & Heq & Hd).
    rewrite (sorted_by_priority_perm ds) in Hd.
    rewrite Forall_forall in Hel. specialize (Hel d Hd).
    exists (AM.d_source_node d). rewrite Heq. exact Hel.
  - cbn in Hlen. unfold AM.max_concurrent_migrations in *. lia.
Qed.

(** ** The cooldown *)

Lemma evaluate_keeps_spacing eng evs state now th rng migs eng' rng' :
  cooldown_covers eng evs -> spaced evs ->
  AM.evaluate_migrations eng state now th rng = Py.Ok (migs, eng', rng') ->
  cooldown_covers eng' (evs ++ migs) ∧ spaced (evs ++ migs).
Proof.
  intros Hcov Hsp Hev.
  apply evaluate_migrations_spec in Hev as ((_ & Hlast & _ & Hstart) & Hnd & Hel & _).
  rewrite Forall_forall in Hstart, Hel.
  assert (forall a b, a ∈ evs -> b ∈ migs -> mig_service_id a = mig_service_id b ->
            mig_start_time a + 30 <= now) as Hgap.
  { intros a b Ha Hb Hab. destruct (Hcov a Ha) as (t & Ht & Hat).
    destruct (Hel b Hb) as (src & _ & Hcool & _).
    rewrite <- Hab, Ht in Hcool. cbn in Hcool. qlra. }
  split.
  - intros ev Hev. rewrite Hlast.
    destruct (decide (mig_service_id ev ∈ mig_service_id <$> migs)) as [Hin|Hnot].
    + exists now. split; [done|].
      apply elem_of_app in Hev as [Hev|Hev].
      * apply list_elem_of_fmap in Hin as (b & Hab & Hb).
        specialize (Hgap ev b Hev Hb Hab). qlra.
      * rewrite (Hstart ev Hev). qlra.
    + apply elem_of_app in Hev as [Hev|Hev]; [exact (Hcov ev Hev)|].
      exfalso. apply Hnot. apply list_elem_of_fmap. eauto.
  - intros i j a b Hij Ha Hb Hab.
    destruct (decide (j < length evs)%nat) as [Hj|Hj].
    + rewrite lookup_app_l in Ha, Hb by lia. exact (Hsp i j a b Hij Ha Hb Hab).
    + rewrite (lookup_app_r evs migs j) in Hb by lia.
      assert (b ∈ migs) as Hbin by (apply list_elem_of_lookup; eauto).
      rewrite (Hstart b Hbin).
      destruct (decide (i < length evs)%nat) as [Hi|Hi].
      * rewrite lookup_app_l in Ha by lia.
        eapply Hgap; [|exact Hbin|exact Hab]. apply list_elem_of_lookup; eauto.
      * rewrite (lookup_app_r evs migs i) in Ha by lia. exfalso.
        assert ((mig_service_id <$> migs) !! (i - length evs)%nat
                = Some (mig_service_id a)) as Hia by (by rewrite list_lookup_fmap, Ha).
        assert ((mig_service_id <$> migs) !! (j - length evs)%nat
                = Some (mig_service_id a)) as Hja
          by (by rewrite list_lookup_fmap, Hb, Hab).
        pose proof (NoDup_lookup _ _ _ _ Hnd Hia Hja). lia.
Qed.

(** C2, amended.  In every history of the engine, whatever calls of
    [evaluate_migrations] and [complete_migration] produced it, two
    attempts on the same service start at least 30 seconds apart,
    whether the earlier attempt succeeded or failed: a failed attempt is
    charged the cooldown like a successful one. *)
Theorem migration_attempts_respect_cooldown eng evs :
  engine_trace eng evs ->
  forall (i j : nat) a b,
    (i < j)%nat -> evs !! i = Some a -> evs !! j = Some b ->
    mig_service_id a = mig_service_id b ->
    mig_start_time a + 30 <= mig_start_time b.
Proof.
  intros Htrace.
  assert (cooldown_covers eng evs ∧ spaced evs) as [_ Hsp]; [|exact Hsp].
  induction Htrace as [|eng evs state now th rng migs eng' rng' _ [Hc Hs] Hev
                       |eng evs sid _ IH].
  - split; [intros ev Hev; by apply not_elem_of_nil in Hev|].
    intros i j a b _ Ha. by rewrite lookup_nil in Ha.
  - by eapply evaluate_keeps_spacing.
  - exact IH.
Qed.

(** C2 as stated fails.  The attempt on "svc" at 100 fails; a retry at
    101 produces no attempt, also after the service was released with
    [complete_migration]; after release, the retry at 131 is made. *)
Lemma failed_attempt_is_charged_cooldown :
  (fun m => (mig_service_id m, mig_start_time m, success m)) <$> fst (fst first_attempt)
  = [("svc", 100, false)]
  ∧ fst (fst retry_at_once) = []
  ∧ fst (fst retry_after_release) = []
  ∧ (fun m => (mig_service_id m, mig_start_time m, success m))
      <$> fst (fst retry_after_cooldown)
    = [("svc", 131, true)].
Proof. repeat split; vm_compute; reflexivity. Qed.

Lemma evaluate_at_ok eng now rng :
  (∃ r, AM.evaluate_migrations eng hot_state now now rng = Py.Ok r) ->
  AM.evaluate_migrations eng hot_state now now rng
  = Py.Ok (fst (fst (evaluate_at eng now rng)), snd (fst (evaluate_at eng now rng)),
           snd (evaluate_at eng now rng)).
Proof.
  intros [[[migs e] r] H]. unfold evaluate_at. by rewrite H.
Defined.

Lemma two_attempts_trace :
  engine_trace (snd (fst retry_after_cooldown)) two_attempts.
Proof.
  eapply trace_evaluate.
  - apply (trace_complete engine_after_failure (fst (fst first_attempt)) "svc").
    eapply (trace_evaluate AM.init [] hot_state 100 100 quiet_rng);
      [apply trace_init|].
    apply evaluate_at_ok. vm_compute. eauto.
  - apply evaluate_at_ok. vm_compute. eauto.
Defined.

(** C2 amended, on a failed attempt at 100 followed by one at 131. *)
Lemma migration_attempts_respect_cooldown_witness :
  ∃ a b, two_attempts !! 0%nat = Some a ∧ two_attempts !! 1%nat = Some b
         ∧ mig_service_id a = mig_service_id b
         ∧ success a = false
         ∧ mig_start_time a + 30 <= mig_start_time b.
Proof.
  assert (∃ a, two_attempts !! 0%nat = Some a ∧ mig_service_id a = "svc"
               ∧ success a = false) as (a & Ha & Hsa & Hfa).
  { vm_compute. eauto. }
  assert (∃ b, two_attempts !! 1%nat = Some b ∧ mig_service_id b = "svc")
    as (b & Hb & Hsb).
  { vm_compute. eauto. }
  exists a, b. split; [done|]. split; [done|]. split; [congruence|]. split; [done|].
  apply (migration_attempts_respect_cooldown _ _ two_attempts_trace 0%nat 1%nat a b);
    [lia|done|done|congruence].
Defined.

(** ** Migrations in the tick loop *)

Lemma process_request_migration_frame sim request now net rng out sim' rng' :
  LBS._process_service_request sim request now net rng = (out, sim', rng') ->
  LBS.adaptive_migration_engine sim' = LBS.adaptive_migration_engine sim
  ∧ migration_history (LBS.state sim') = migration_history (LBS.state sim).
Proof.
  unfold LBS._process_service_request.
  repeat match goal with
         | |- context [match ?x with _ => _ end] => destruct x
         end; intros [= <- <- <-]; done.
Qed.

Lemma process_requests_migration_frame net requests : forall sim rng sim' rng',
  foldl (fun (acc : LBS.Simulation * Random.Rng) (item : ServiceRequest * Q) =>
           let '(_, s, r) :=
             LBS._process_service_request (fst acc) (fst item) (snd item)
               net (snd acc) in
           (s, r))
        (sim, rng) requests = (sim', rng') ->
  LBS.adaptive_migration_engine sim' = LBS.adaptive_migration_engine sim
  ∧ migration_history (LBS.state sim') = migration_history (LBS.state sim).
Proof.
  induction requests as [|x xs IH]; intros sim rng sim' rng'; cbn [foldl fst snd].
  - intros [= <- <-]. done.
  - destruct (LBS._process_service_request sim (fst x) (snd x) net rng)
      as [[out s1] r1] eqn:E.
    intros H. apply IH in H as [-> ->].
    by apply process_request_migration_frame in E.
Qed.

Lemma update_failures_migration_frame sim now rng sim' rng' :
  LBS.update_failures sim now rng = (sim', rng') ->
  LBS.adaptive_migration_engine sim' = LBS.adaptive_migration_engine sim
  ∧ migration_history (LBS.state sim') = migration_history (LBS.state sim).
Proof.
  unfold LBS.update_failures.
  destruct (LBS.failure_injector sim) as [inj|]; [|by intros [= <- <-]].
  destruct (FailureInjection.inject_failures _ _ _ _) as [[nf inj'] r1].
  destruct (foldl _ _ _) as [[a f] fs]. by intros [= <- <-].
Qed.

Lemma apply_migrations_history migs : forall st,
  migration_history (foldl LBS.apply_migration st migs) = migration_history st.
Proof.
  induction migs as [|m ms IH]; intros st; cbn [foldl]; [done|].
  rewrite IH. unfold LBS.apply_migration. by destruct (success m).
Qed.

(** What a tick does to the migration engine: one call of
    [evaluate_migrations], whose events are appended to the history. *)
Lemma tick_migration_step sim inp rng sim' rng' :
  LBS.tick sim inp rng = Py.Ok (sim', rng') ->
  match LBS.adaptive_migration_engine sim with
  | None =>
      LBS.adaptive_migration_engine sim' = None
      ∧ migration_history (LBS.state sim') = migration_history (LBS.state sim)
  | Some eng =>
      ∃ st rng0 migs eng' rng1,
        AM.evaluate_migrations eng st (LBS.tick_migration_time inp)
          (LBS.tick_history_time inp) rng0 = Py.Ok (migs, eng', rng1)
        ∧ LBS.adaptive_migration_engine sim' = Some eng'
        ∧ migration_history (LBS.state sim')
          = migration_history (LBS.state sim) ++ migs
  end.
Proof.
  unfold LBS.tick.
  destruct (foldl _ _ _) as [sim1 rng1] eqn:E1.
  apply process_requests_migration_frame in E1 as [He1 Hh1]. cbn in He1, Hh1.
  unfold LBS._update_system_state.
  destruct (LBS.update_failures sim1 _ rng1) as [sim2 rng2] eqn:E2.
  apply update_failures_migration_frame in E2 as [He2 Hh2].
  rewrite He1 in He2. rewrite Hh1 in Hh2. clear He1 Hh1.
  unfold LBS.update_migrations. rewrite He2.
  destruct (LBS.adaptive_migration_engine sim) as [eng|].
  - destruct (AM.evaluate_migrations eng (LBS.state sim2) _ _ rng2)
      as [[[migs eng'] r3]|e] eqn:Ev; cbn; [|done].
    intros [= <- <-]. exists (LBS.state sim2), rng2, migs, eng', r3.
    split; [done|]. split; [done|]. cbn.
    by rewrite apply_migrations_history, <- Hh2.
  - cbn. intros [= <- <-]. cbn. done.
Qed.

Lemma reachable_never_released sim : LBS.reachable sim -> never_released sim.
Proof.
  induction 1 as [cfg now hash sim Hinit | sim inp rng sim' rng' Hr IH Ht].
  - unfold LBS.init in Hinit.
    destruct (LBS._initialize_node_weights cfg); cbn in Hinit; [|done].
    injection Hinit as <-. intros eng. cbn.
    destruct (adaptive_migration_enabled cfg); [|done].
    intros [= <-]. cbn. split; [done|constructor].
  - apply tick_migration_step in Ht. intros eng' Heng'.
    destruct (LBS.adaptive_migration_engine sim) as [eng|] eqn:Ee.
    2:{ destruct Ht as [Hnone _]. congruence. }
    destruct Ht as (st & rng0 & migs & eng1 & rng1 & Hev & He & Hh).
    rewrite He in Heng'. injection Heng' as <-.
    destruct (IH eng Ee) as [Hact Hnd].
    apply evaluate_migrations_spec in Hev as ((Ha & _) & Hndm & Hel & _).
    rewrite Hh, fmap_app. split.
    + rewrite Ha, Hact. by rewrite list_to_set_app_L.
    + apply NoDup_app. split; [done|]. split; [|done].
      intros sid Hold Hnew. apply list_elem_of_fmap in Hnew as (m & -> & Hm).
      rewrite Forall_forall in Hel. destruct (Hel m Hm) as (src & _ & _ & Hnot).
      apply Hnot. rewrite Hact. by apply elem_of_list_to_set.
Qed.

(** C10.  In the tick loop, which never calls [complete_migration]:
    every migration event produced so far, failed ones included, has its
    service in the engine's [active_migrations]; that set has as many
    elements as events were produced; a tick only enlarges it, appending
    the new events to the history; and once three events have been
    produced, every call of [evaluate_migrations] returns the empty list
    and leaves the engine as it is, so no tick adds an event. *)
Theorem active_migrations_never_released sim eng :
  LBS.reachable sim ->
  LBS.adaptive_migration_engine sim = Some eng ->
  let history := migration_history (LBS.state sim) in
  (forall ev, ev ∈ history -> mig_service_id ev ∈ AM.active_migrations eng)
  ∧ size (AM.active_migrations eng) = length history
  ∧ (forall inp rng sim' rng',
       LBS.tick sim inp rng = Py.Ok (sim', rng') ->
       ∃ eng' migs,
         LBS.adaptive_migration_engine sim' = Some eng'
         ∧ AM.active_migrations eng ⊆ AM.active_migrations eng'
         ∧ migration_history (LBS.state sim') = history ++ migs
         ∧ ((3 <= length history)%nat -> migs = []))
  ∧ ((3 <= length history)%nat ->
     forall state now th rng,
       AM.evaluate_migrations eng state now th rng = Py.Ok ([], eng, rng)).
Proof.
  intros Hr He history.
  destruct (reachable_never_released sim Hr eng He) as [Hact Hnd].
  fold history in Hact, Hnd.
  assert (size (AM.active_migrations eng) = length history) as Hsize.
  { rewrite Hact, size_list_to_set by done. by rewrite length_fmap. }
  assert ((3 <= length history)%nat ->
          forall state now th rng,
            AM.evaluate_migrations eng state now th rng = Py.Ok ([], eng, rng))
    as Hstop.
  { intros Hlen state now th rng. unfold AM.evaluate_migrations.
    rewrite decide_True; [done|]. unfold AM.max_concurrent_migrations. lia. }
  split; [|split; [done|split; [|done]]].
  - intros ev Hev. rewrite Hact. apply elem_of_list_to_set, list_elem_of_fmap. eauto.
  - intros inp rng sim' rng' Ht. apply tick_migration_step in Ht.
    rewrite He in Ht. destruct Ht as (st & rng0 & migs & eng' & rng1 & Hev & He' & Hh).
    exists eng', migs. split; [done|]. split; [|split; [done|]].
    + apply evaluate_migrations_spec in Hev as ((Ha & _) & _). rewrite Ha. set_solver.
    + intros Hlen. rewrite (Hstop Hlen) in Hev. by injection Hev as <- _ _.
Qed.

(** C10 on the simulation after one busy tick: three failed attempts. *)
Lemma active_migrations_never_released_witness :
  Forall (fun ev => mig_service_id ev ∈ AM.active_migrations engine_after_busy_tick)
         (migration_history (LBS.state (fst after_busy_tick)))
  ∧ success <$> migration_history (LBS.state (fst after_busy_tick))
    = [false; false; false]
  ∧ size (AM.active_migrations engine_after_busy_tick) = 3%nat
  ∧ AM.evaluate_migrations engine_after_busy_tick hot_state 5000 5000 (const_rng 0)
    = Py.Ok ([], engine_after_busy_tick, const_rng 0).
Proof.
  assert (LBS.adaptive_migration_engine (fst after_busy_tick)
          = Some engine_after_busy_tick) as He.
  { unfold engine_after_busy_tick.
    destruct (LBS.adaptive_migration_engine (fst after_busy_tick)) eqn:E;
      [reflexivity|].
    vm_compute in E. discriminate E. }
  destruct (active_migrations_never_released (fst after_busy_tick)
              engine_after_busy_tick after_busy_tick_reachable He)
    as (Hin & Hsize & _ & Hstop).
  assert (length (migration_history (LBS.state (fst after_busy_tick))) = 3%nat)
    as Hlen by (vm_compute; reflexivity).
  split; [by apply Forall_forall|]. split; [vm_compute; reflexivity|].
  split; [by rewrite Hsize|]. apply Hstop. lia.
Defined.
